(** * The connection manager of the honeypot: listeners, dispatch, storage

    A shallow embedding of [internal/conman/tcpmanager.go] and
    [pkg/conman/store.go], with the pattern table of the rdp driver.

    The Go code is a set of methods on one [ConnectionManager] value that
    talk to the operating system (sockets, the file system, an object
    store) and to channels.  Here a method is a function in a small monad
    over a [State]: the manager's fields, a file system, and the [trace] of
    every effect the method performs, in program order.  What the outside
    world answers (the result of a bind, of a read, of a TLS handshake) is
    an argument of the method. *)

From Stdlib Require Import ZArith List Bool Strings.Byte Strings.Ascii.
From stdpp Require Import base option list gmap strings pretty.

Local Open Scope string_scope.
Local Open Scope Z_scope.

(** ** Go values *)

(** A Go [error].  [io.EOF] is the only error value the code compares
    against; all the others are told apart by their message only. *)
Inductive error :=
  | EOF
  | Err (msg : string).

Definition is_EOF (e : error) : bool :=
  match e with EOF => true | Err _ => false end.

(** [make([]byte, n)]: n zero bytes. *)
Definition make (n : nat) : list byte := replicate n x00.

(** [buf[:n]] panics when [n] exceeds the capacity; the slices of this
    program have their capacity equal to their length. *)
Definition slice_to (buf : list byte) (n : nat) : option (list byte) :=
  if decide (n ≤ length buf)%nat then Some (take n buf) else None.

(** [bytes.HasPrefix]. *)
Fixpoint hasPrefix (buf pat : list byte) : bool :=
  match pat, buf with
  | [], _ => true
  | _ :: _, [] => false
  | p :: pat', b :: buf' => Byte.eqb p b && hasPrefix buf' pat'
  end.

(** ** The data of the connection manager *)

Record Config := mkConfig {
  MaxPort : Z;            (* uint16 *)
  BindAddress : string;
  BanThreshold : Z;
  OutputFolder : string;
  S3Bucket : string;
  S3Key : string
}.

(** A local interface address, with what [privateIP], [To4] and [String]
    answer on it. *)
Record IP := mkIP {
  ip_private : bool;      (* privateIP(addr) *)
  ip_is4 : bool;          (* addr.To4() != nil *)
  ip_String : string
}.

(** [net.Addr]: the code only asks whether an address is a [*net.TCPAddr]. *)
Inductive Addr :=
  | TCPAddr (ip : string) (port : Z)
  | OtherAddr (name : string).

(** A listening socket, as [net.Listen("tcp", addr)] returns it. *)
Record Listener := mkListener {
  ln_addr : string;       (* the "host:port" it was bound with *)
  ln_port : Z             (* the Port of its TCP address *)
}.

(** [muxconn.MuxListener]: the synthetic listener of a driver; sending on
    its [ConnCh] hands a connection to the driver. *)
Record MuxListener := mkMuxListener {
  driver : string
}.

(** [store.File] *)
Record File := mkFile {
  Filename : string;
  Location : string;
  Data : list byte
}.

(** The connection a handler works on: [Raw] is the accepted socket in its
    sniffer, [Cleartext] the sniffer [unwrapTLS] returns. *)
Inductive MuxConn := Raw | Cleartext.

(** What the peer and the network do on one accepted connection. *)
Record Conn := mkConn {
  RemoteAddr : Addr;
  (* the first Read on the sniffer: the bytes it delivers and its error *)
  read_data : list byte;
  read_err : option error;
  (* unwrapTLS: an error, or the new buffer and the count it returns *)
  tls_result : error + (list byte * nat)
}.

(** [probe.TCPPacket], the fields the observer uses. *)
Record TCPPacket := mkTCPPacket {
  Flags : Z;
  DestPort : Z
}.

Record ConnectionManager := mkCM {
  config : Config;
  addresses : list IP;
  tcpListeners : gmap Z Listener;
  knownHashes : gset string;          (* a sync.Map used as a set *)
  banList : gmap string Z;
  tcpRules : list (list byte * MuxListener);
  uploader : bool;                    (* s.uploader != nil *)
  Sanitize : list byte -> list byte
}.

(** ** The file system

    Paths are kept as lists of components; [dirs] are the directories
    besides the root, [cwd] the working directory when it can be read, and
    [fault] an error every write meets (a full or read-only disk). *)
Record FS := mkFS {
  dirs : gset (list string);
  files : gmap (list string) (list byte);
  cwd : option (list string);
  fault : option error
}.

(** ** Effects, in program order *)
Inductive Event :=
  (* CreateTCPListener *)
  | EvListen (addr : string) (res : option error)
  | EvSpawnAccept (ln : Listener)
  (* tcpManager *)
  | EvCreateTCPListener (port : Z)      (* the call s.CreateTCPListener(port) *)
  | EvLog (level msg : string)
  (* handleConnection *)
  | EvConnClose                         (* conn.Close() *)
  | EvNewMuxConn
  | EvStartSniffing
  | EvSpawnBanner (port : Z)
  | EvSpawnTimeout
  | EvRead (n : nat) (err : option error)
  | EvMucClose (m : MuxConn)
  | EvBannerCancel
  | EvTimeoutCancel
  | EvDoneSniffing
  | EvUnwrapTLS (ok : bool)
  | EvReset (m : MuxConn)
  | EvTagHash (hash : string)           (* the hash put in muc.Context *)
  | EvStoreSend (f : File)              (* s.storeChan <- f *)
  | EvDeliver (ln : MuxListener) (m : MuxConn) (root : Listener)
  | EvWgDone
  (* Store, setupStore *)
  | EvWriteFile (path : string) (data : list byte) (res : option error)
  | EvUpload (bucket key : string) (body : list byte) (res : option error)
  | EvMkdir (path : string) (res : option error)
  | EvNewUploader.

Record State := mkState {
  cm : ConnectionManager;
  fs : FS;
  trace : list Event
}.

(** ** The monad: state, and a panic that stops the method *)
Inductive result (A : Type) :=
  | Ret (a : A)
  | Panic (msg : string).
Arguments Ret {A} a.
Arguments Panic {A} msg.

Definition M (A : Type) : Type := State -> result A * State.

#[export] Instance M_ret : MRet M := fun A a st => (Ret a, st).
#[export] Instance M_bind : MBind M := fun A B f m st =>
  match m st with
  | (Ret a, st') => f a st'
  | (Panic msg, st') => (Panic msg, st')
  end.

Definition panic {A} (msg : string) : M A := fun st => (Panic msg, st).
Definition gets {A} (f : ConnectionManager -> A) : M A :=
  fun st => (Ret (f (cm st)), st).
Definition emit (e : Event) : M unit :=
  fun st => (Ret tt, mkState (cm st) (fs st) (trace st ++ [e])%list).
Definition modify_cm (f : ConnectionManager -> ConnectionManager) : M unit :=
  fun st => (Ret tt, mkState (f (cm st)) (fs st) (trace st)).
Definition modify_fs (f : FS -> FS) : M unit :=
  fun st => (Ret tt, mkState (cm st) (f (fs st)) (trace st)).
Definition get_fs : M FS := fun st => (Ret (fs st), st).

(** [defer d; body]: [d] runs when [body] returns and when it panics. *)
Definition defer {A} (d : M unit) (body : M A) : M A := fun st =>
  match body st with
  | (r, st') => (r, snd (d st'))
  end.

Definition set_tcpListeners (m : gmap Z Listener) (s : ConnectionManager) :=
  mkCM (config s) (addresses s) m (knownHashes s) (banList s) (tcpRules s)
       (uploader s) (Sanitize s).
Definition set_banList (b : gmap string Z) (s : ConnectionManager) :=
  mkCM (config s) (addresses s) (tcpListeners s) (knownHashes s) b (tcpRules s)
       (uploader s) (Sanitize s).
Definition set_config (c : Config) (s : ConnectionManager) :=
  mkCM c (addresses s) (tcpListeners s) (knownHashes s) (banList s) (tcpRules s)
       (uploader s) (Sanitize s).
Definition set_uploader (u : bool) (s : ConnectionManager) :=
  mkCM (config s) (addresses s) (tcpListeners s) (knownHashes s) (banList s)
       (tcpRules s) u (Sanitize s).
Definition set_OutputFolder (f : string) (c : Config) :=
  mkConfig (MaxPort c) (BindAddress c) (BanThreshold c) f (S3Bucket c) (S3Key c).

(** ** tcpmanager.go: the listener registry *)

(** The bind address: "0.0.0.0", the configured literal, or with "public"
    the non-private IPv4 address the loop over [s.addresses] assigns last. *)
Definition bindAddress (s : ConnectionManager) : string :=
  if decide (BindAddress (config s) = EmptyString) then "0.0.0.0"
  else if decide (BindAddress (config s) = "public") then
    foldl (fun address addr =>
             if negb (ip_private addr) && ip_is4 addr then ip_String addr
             else address)
          "0.0.0.0" (addresses s)
  else BindAddress (config s).

(** [CreateTCPListener].  [net_Listen] is what the operating system answers
    to [net.Listen("tcp", addr)]: an error, or the listener. *)
Definition CreateTCPListener (net_Listen : string -> error + Listener)
    (port : Z) : M (bool * option error) :=
  s ← gets id;
  if decide (MaxPort (config s) < port) then
    mret (false, Some (Err "above config.Maxport"))
  else
    let address := bindAddress s in
    match tcpListeners s !! port with
    | None =>
        let addr := address +:+ ":" +:+ pretty port in
        match net_Listen addr with
        | inl err =>
            emit (EvListen addr (Some err));;
            mret (true, Some err)
        | inr ln =>
            emit (EvListen addr None);;
            (* s.tcpListeners[port] = ln *)
            modify_cm (fun s => set_tcpListeners (<[port := ln]> (tcpListeners s)) s);;
            emit (EvSpawnAccept ln);;
            mret (false, None)
        end
    | Some _ => mret (true, None)
    end.

(** ** tcpmanager.go: the raw SYN observer *)

(** Modelled from the spec: the flag masks [probe.SYN] and [probe.ACK] of
    package probe, whose file is not among the sources.  The spec speaks of
    the SYN and ACK flags of the TCP header; their masks are bit 1 and
    bit 4 of the flags byte. *)
Definition SYN : Z := 2.
Definition ACK : Z := 16.

(** One turn of the loop of [tcpManager] after a successful [ReadFrom],
    on the packet [pkt.Decode(buf[:n])] has filled in. *)
Definition tcpManager_packet (net_Listen : string -> error + Listener)
    (pkt : TCPPacket) : M unit :=
  if decide (Z.land (Flags pkt) SYN ≠ 0) then
    emit (EvCreateTCPListener (DestPort pkt));;
    '(known, err) ← CreateTCPListener net_Listen (DestPort pkt);
    (match err with
     | Some _ => emit (EvLog "trace" "creating socket")
     | None => mret tt
     end);;
    if (known : bool) then mret tt
    else emit (EvLog "trace" ("started tcp server: " +:+ pretty (DestPort pkt)))
  else mret tt.

(** ** The helpers of the handler that live in other files *)

(** Modelled from the spec: [tickBan], whose file is not among the sources.
    It increments the strike count of [ip] and answers whether the count
    after the increment exceeds [BanThreshold]. *)
Definition tickBan (ip : string) : M bool :=
  s ← gets id;
  let count := default 0 (banList s !! ip) + 1 in
  modify_cm (set_banList (<[ip := count]> (banList s)));;
  mret (bool_decide (BanThreshold (config s) < count)).

(** Modelled from the spec: [tcpRules.Match], the lookup in the pattern
    table, whose code is not among the sources.  It answers the entry whose
    pattern is the longest registered prefix of the buffer; of two entries
    with the same pattern the one registered first wins. *)
Definition better (buf : list byte) (best : option (list byte * MuxListener))
    (r : list byte * MuxListener) : option (list byte * MuxListener) :=
  if hasPrefix buf r.1 then
    match best with
    | None => Some r
    | Some b => if decide (length b.1 < length r.1)%nat then Some r else best
    end
  else best.

Definition Match (rules : list (list byte * MuxListener)) (buf : list byte)
    : option MuxListener :=
  snd <$> foldl (better buf) None rules.

(** The rdp driver: [Patterns] and the table entry [AddDriver] makes of it. *)
Definition rdp_Patterns : list (list byte) := [[x03; x00; x00]].
Definition rdp : MuxListener := mkMuxListener "rdp".
Definition rdp_rules : list (list byte * MuxListener) :=
  map (fun p => (p, rdp)) rdp_Patterns.

(** ** tcpmanager.go: the handler of one accepted connection *)

Section Handler.
(** [drivers.GetHash], a function of the bytes alone. *)
Variable GetHash : list byte -> string.

(** [buf[:n]] inside the monad. *)
Definition slice (buf : list byte) (n : nat) : M (list byte) :=
  match slice_to buf n with
  | Some b => mret b
  | None => panic "slice bounds out of range"
  end.

(** [buf[i]] inside the monad. *)
Definition index (buf : list byte) (i : nat) : M byte :=
  match buf !! i with
  | Some b => mret b
  | None => panic "index out of range"
  end.

(** [r.Read(buf)] on the sniffer: the first [n] bytes of [buf] are
    overwritten with what the connection delivers, the rest stays. *)
Definition Read (conn : Conn) (buf : list byte)
    : M (list byte * nat * option error) :=
  let data := take (length buf) (read_data conn) in
  let n := length data in
  emit (EvRead n (read_err conn));;
  mret ((data ++ drop n buf)%list, n, read_err conn).

Definition handleConnection (conn : Conn) (root : Listener) : M unit :=
  defer (emit EvWgDone) (
    (* ban hammers *)
    banned ← match RemoteAddr conn with
             | TCPAddr ip _ => tickBan ip
             | OtherAddr _ => mret false
             end;
    if (banned : bool) then emit EvConnClose
    else
      (* create our sniffer *)
      emit EvNewMuxConn;;
      emit EvStartSniffing;;
      let port := pretty (ln_port root) in
      ip ← match RemoteAddr conn with
           | TCPAddr ip _ => mret ip
           | OtherAddr _ => panic "interface conversion: not *net.TCPAddr"
           end;
      emit (EvSpawnBanner (ln_port root `mod` 65536));;
      emit EvSpawnTimeout;;
      (* How are those first bytes tasting? *)
      '(buf, n, err) ← Read conn (make 1500);
      (match err with
       | Some e =>
           if is_EOF e then mret tt
           else emit (EvLog "debug" "error reading from sniffer");;
                emit (EvMucClose Raw)
       | None => mret tt
       end);;
      emit EvBannerCancel;;
      emit EvTimeoutCancel;;
      (* Try unwrapping TLS/SSL *)
      b0 ← index buf 0;
      '(muc, buf, n, tlsUnwrap) ←
        (if Byte.eqb b0 x16 then
           emit EvDoneSniffing;;
           match tls_result conn with
           | inr (newBuf, newN) =>
               emit (EvUnwrapTLS true);;
               mret (Cleartext, newBuf, newN, true)
           | inl _ =>
               emit (EvUnwrapTLS false);;
               mret (Raw, buf, n, false)
           end
         else mret (Raw, buf, n, false));
      emit (EvReset muc);;
      (* get the hash of the first n bytes and tag the context *)
      b ← slice buf n;
      let hash := GetHash b in
      emit (EvTagHash hash);;
      (* log the connection *)
      emit (EvLog "trace" "tcp knock");;
      (* save the raw data *)
      (if decide (0 < n)%nat then
         s ← gets id;
         if decide (hash ∈ knownHashes s) then mret tt
         else d ← slice buf n;
              emit (EvStoreSend (mkFile hash "raw" d))
       else mret tt);;
      (* see if we match a rule and transfer the connection to the driver *)
      s ← gets id;
      let entry := Match (tcpRules s) buf in
      emit (EvReset muc);;
      match entry with
      | Some ln => emit (EvDeliver ln muc root)
      | None =>
          (if decide (0 < n)%nat then emit (EvLog "debug" "no driver")
           else mret tt);;
          emit (EvMucClose muc)
      end).
End Handler.

(** ** The file system calls of store.go *)

(** The components of a path: the pieces between slashes, without the
    empty ones and the dots. *)
Fixpoint pieces (acc : string) (s : string) : list string :=
  match s with
  | EmptyString => [acc]
  | String c s' =>
      if Ascii.eqb c "/"%char then acc :: pieces EmptyString s'
      else pieces (acc +:+ String c EmptyString) s'
  end.

Definition components (path : string) : list string :=
  filter (fun c => c ≠ EmptyString ∧ c ≠ ".") (pieces EmptyString path).

Definition is_abs (path : string) : bool :=
  match path with
  | String c _ => Ascii.eqb c "/"%char
  | EmptyString => false
  end.

(** A relative path starts at the working directory. *)
Definition resolve (f : FS) (path : string) : option (list string) :=
  if is_abs path then Some (components path)
  else (fun c => (c ++ components path)%list) <$> cwd f.

Definition is_dir (f : FS) (p : list string) : bool :=
  bool_decide (p = [] ∨ p ∈ dirs f).
Definition is_file (f : FS) (p : list string) : bool :=
  bool_decide (is_Some (files f !! p)).
Definition parent (p : list string) : list string := removelast p.

Definition ENOENT : error := Err "no such file or directory".
Definition EEXIST : error := Err "file exists".
Definition EISDIR : error := Err "is a directory".

(** mkdir(2): the path must be new and its parent a directory. *)
Definition mkdir_result (f : FS) (path : string) : error + list string :=
  match fault f, resolve f path with
  | Some e, _ => inl e
  | None, None => inl ENOENT
  | None, Some p =>
      if is_dir f p || is_file f p then inl EEXIST
      else if is_dir f (parent p) then inr p
      else inl ENOENT
  end.

Definition os_Mkdir (path : string) : M (option error) :=
  f ← get_fs;
  match mkdir_result f path with
  | inl e => emit (EvMkdir path (Some e));; mret (Some e)
  | inr p =>
      emit (EvMkdir path None);;
      modify_fs (fun f => mkFS ({[p]} ∪ dirs f) (files f) (cwd f) (fault f));;
      mret None
  end.

(** open(2) with O_CREATE and O_TRUNC, then write: the parent must be a
    directory and the path must not be one. *)
Definition write_result (f : FS) (path : string) : error + list string :=
  match fault f, resolve f path with
  | Some e, _ => inl e
  | None, None => inl ENOENT
  | None, Some p =>
      if is_dir f p then inl EISDIR
      else if is_dir f (parent p) then inr p
      else inl ENOENT
  end.

Definition ioutil_WriteFile (path : string) (data : list byte)
    : M (option error) :=
  f ← get_fs;
  match write_result f path with
  | inl e => emit (EvWriteFile path data (Some e));; mret (Some e)
  | inr p =>
      emit (EvWriteFile path data None);;
      modify_fs (fun f => mkFS (dirs f) (<[p := data]> (files f)) (cwd f)
                               (fault f));;
      mret None
  end.

Definition path_String (p : list string) : string :=
  match p with
  | [] => "/"
  | _ => foldr (fun c acc => "/" +:+ c +:+ acc) EmptyString p
  end.

Definition os_Getwd : M (error + string) :=
  f ← get_fs;
  match cwd f with
  | Some c => mret (inr (path_String c))
  | None => mret (inl ENOENT)
  end.

(** ** store.go *)

(** [Store].  [s3_result] is what the upload to the object store answers. *)
Definition Store (s3_result : option error) (filename location : string)
    (data : list byte) : M unit :=
  s ← gets id;
  (* write out *)
  (if decide (OutputFolder (config s) ≠ EmptyString) then
     err ← ioutil_WriteFile
             (OutputFolder (config s) +:+ "/" +:+ location +:+ "/" +:+ filename)
             (Sanitize s data);
     match err with
     | Some _ => emit (EvLog "debug" "error saving raw data")
     | None => mret tt
     end
   else mret tt);;
  (* Upload to s3 *)
  if uploader s then
    emit (EvUpload (S3Bucket (config s)) (location +:+ "/" +:+ filename) data
                   s3_result);;
    match s3_result with
    | Some _ => emit (EvLog "debug" "error saving raw data")
    | None => mret tt
    end
  else mret tt.

Definition setupStore : M (option error) :=
  (* setup local storage *)
  s ← gets id;
  e ← (if decide (OutputFolder (config s) = ".") then
         pw ← os_Getwd;
         match pw with
         | inl err => mret (Some err)
         | inr pw =>
             (* s.config.OutputFolder = pw + "/" *)
             modify_cm (fun s => set_config
                                   (set_OutputFolder (pw +:+ "/") (config s)) s);;
             mret None
         end
       else mret None);
  match e with
  | Some err => mret (Some err)
  | None =>
      s ← gets id;
      e ← (if decide (OutputFolder (config s) ≠ EmptyString) then
             e ← os_Mkdir (OutputFolder (config s) +:+ "raw");
             match e with
             | Some err => mret (Some err)
             | None => os_Mkdir (OutputFolder (config s) +:+ "sessions")
             end
           else mret None);
      match e with
      | Some err => mret (Some err)
      | None =>
          (* setup s3 storage *)
          (if decide (S3Key (config s) ≠ EmptyString) then
             emit EvNewUploader;;
             modify_cm (set_uploader true)
           else mret tt);;
          mret None
      end
  end.

(** * Notions used in the properties *)

(** The events a method adds to the trace when it runs from [st]. *)
Definition events {A} (m : M A) (st : State) : list Event :=
  drop (length (trace st)) (trace (m st).2).

(** The records sent on the capture channel for the bucket "raw". *)
Definition raw_sends (tr : list Event) : list File :=
  omap (fun e => match e with
                 | EvStoreSend f =>
                     if decide (Location f = "raw") then Some f else None
                 | _ => None
                 end) tr.

(** The registry, the port limit, the known hashes and the pattern table:
    the part of the manager that several methods share. *)
Definition shared (st : State)
    : gmap Z Listener * Z * gset string * list (list byte * MuxListener) :=
  (tcpListeners (cm st), MaxPort (config (cm st)), knownHashes (cm st),
   tcpRules (cm st)).

(** A method leaves the shared part as it found it. *)
Definition keeps {A} (m : M A) : Prop := ∀ st, shared (m st).2 = shared st.

(** Every entry of the registry is at or below the port limit. *)
Definition bounded (st : State) : Prop :=
  ∀ p ln, tcpListeners (cm st) !! p = Some ln → p ≤ MaxPort (config (cm st)).

(** The four ways [CreateTCPListener] can go. *)
Inductive create_outcome (net_Listen : string → error + Listener) (port : Z)
    (st : State) : result (bool * option error) * State → Prop :=
  | create_rejected :
      MaxPort (config (cm st)) < port →
      create_outcome net_Listen port st
        (Ret (false, Some (Err "above config.Maxport")), st)
  | create_present ln :
      port ≤ MaxPort (config (cm st)) →
      tcpListeners (cm st) !! port = Some ln →
      create_outcome net_Listen port st (Ret (true, None), st)
  | create_failed err :
      port ≤ MaxPort (config (cm st)) →
      tcpListeners (cm st) !! port = None →
      net_Listen (bindAddress (cm st) +:+ ":" +:+ pretty port) = inl err →
      create_outcome net_Listen port st
        (Ret (true, Some err),
         mkState (cm st) (fs st)
           (trace st ++
            [EvListen (bindAddress (cm st) +:+ ":" +:+ pretty port) (Some err)]))
  | create_bound ln :
      port ≤ MaxPort (config (cm st)) →
      tcpListeners (cm st) !! port = None →
      net_Listen (bindAddress (cm st) +:+ ":" +:+ pretty port) = inr ln →
      create_outcome net_Listen port st
        (Ret (false, None),
         mkState (set_tcpListeners (<[port := ln]> (tcpListeners (cm st))) (cm st))
           (fs st)
           (trace st ++
            [EvListen (bindAddress (cm st) +:+ ":" +:+ pretty port) None;
             EvSpawnAccept ln])).

(** One method call of the connection manager, run to its end. *)
Inductive step : State → State → Prop :=
  | step_CreateTCPListener net_Listen port st :
      step st (CreateTCPListener net_Listen port st).2
  | step_tcpManager net_Listen pkt st :
      step st (tcpManager_packet net_Listen pkt st).2
  | step_handleConnection GetHash conn root st :
      step st (handleConnection GetHash conn root st).2
  | step_Store s3 filename location data st :
      step st (Store s3 filename location data st).2
  | step_setupStore st :
      step st (setupStore st).2.

(** The states of a run: the registry starts empty. *)
Inductive reachable : State → Prop :=
  | reachable_start st : tcpListeners (cm st) = ∅ → reachable st
  | reachable_step st st' : reachable st → step st st' → reachable st'.

(** ** Fixtures for the examples *)

Definition demo_config : Config :=
  mkConfig 10000 EmptyString 3 "/data/" "pot" "secret".
Definition demo_manager : ConnectionManager :=
  mkCM demo_config [] ∅ ∅ ∅ rdp_rules true (fun data => x2a :: data).
Definition demo_fs : FS := mkFS {[ ["data"] ]} ∅ (Some ["srv"; "pot"]) None.
Definition demo_state : State := mkState demo_manager demo_fs [].

(** An operating system that binds whatever address it is asked for. *)
Definition listen_ok (port : Z) (addr : string) : error + Listener :=
  inr (mkListener addr port).

(** A stand-in for [drivers.GetHash] in the examples: the bytes themselves. *)
Definition demo_GetHash (data : list byte) : string :=
  String.string_of_list_byte data.

(** A flag of the TCP header is set in a decoded packet. *)
Definition flag_set (mask : Z) (pkt : TCPPacket) : Prop :=
  Z.land (Flags pkt) mask ≠ 0.

(** The request of a client that speaks HTTP, and the listeners of ports 80
    and 3389. *)
Definition http_GET : list byte :=
  (String.list_byte_of_string "GET / HTTP/1.0" ++ [x0d; x0a; x0d; x0a])%list.
Definition http_root : Listener := mkListener "0.0.0.0:80" 80.
Definition rdp_root : Listener := mkListener "0.0.0.0:3389" 3389.

(** A client at [ip] whose first segment is [data]. *)
Definition knock (ip : string) (data : list byte) : Conn :=
  mkConn (TCPAddr ip 40000) data None (inl (Err "tls: handshake failure")).

(** A client at [ip] that sends nothing until the timeout task closes the
    connection under the pending read. *)
Definition idle (ip : string) : Conn :=
  mkConn (TCPAddr ip 40000) [] (Some (Err "use of closed network connection"))
         (inl (Err "tls: handshake failure")).

(** The address 1.2.3.4 has used up its three strikes. *)
Definition banned_state : State :=
  mkState (set_banList {[ "1.2.3.4" := 3 ]} demo_manager) demo_fs [].

(** ** What [Store] and the handler put on the trace *)

(** The log line of a failed sink. *)
Definition log_error (res : option error) : list Event :=
  match res with
  | Some _ => [EvLog "debug" "error saving raw data"]
  | None => []
  end.

(** What [ioutil.WriteFile] answers on the file system [f]. *)
Definition write_error (f : FS) (path : string) : option error :=
  match write_result f path with
  | inl e => Some e
  | inr _ => None
  end.

(** The path [Store] writes to. *)
Definition local_path (s : ConnectionManager) (filename location : string) :=
  OutputFolder (config s) +:+ "/" +:+ location +:+ "/" +:+ filename.

(** The fixture with another [OutputFolder] and file system. *)
Definition with_OutputFolder (folder : string) (f : FS) : State :=
  mkState (set_config (set_OutputFolder folder demo_config) demo_manager) f [].

(** The folder /data with its subdirectory raw already made. *)
Definition used_fs : FS :=
  mkFS {[ ["data"]; ["data"; "raw"] ]} ∅ (Some ["srv"; "pot"]) None.

(** The buffer after the first read: the bytes read, then what is left of
    the 1500 zero bytes it was made with. *)
Definition sniffed (conn : Conn) : list byte :=
  let data := take 1500 (read_data conn) in
  (data ++ drop (length data) (make 1500))%list.

(** The count the first read returns. *)
Definition sniffed_n (conn : Conn) : nat :=
  length (take 1500 (read_data conn)).

(** The first byte of the buffer is [b]. *)
Definition first_is (b : byte) (buf : list byte) : bool :=
  match buf with
  | b0 :: _ => Byte.eqb b0 b
  | [] => false
  end.

(** The effects of the handler on a connection that is not banned and
    whose TLS handshake, if one is tried, fails. *)
Definition plain_events (GetHash : list byte → string) (s : ConnectionManager)
    (conn : Conn) (root : Listener) : list Event :=
  let buf := sniffed conn in
  let n := sniffed_n conn in
  let B := take 1500 (read_data conn) in
  ([EvNewMuxConn; EvStartSniffing; EvSpawnBanner (ln_port root `mod` 65536);
    EvSpawnTimeout; EvRead n (read_err conn)]
   ++ match read_err conn with
      | Some (Err _) => [EvLog "debug" "error reading from sniffer"; EvMucClose Raw]
      | _ => []
      end
   ++ [EvBannerCancel; EvTimeoutCancel]
   ++ (if first_is x16 buf
       then [EvDoneSniffing; EvUnwrapTLS false] else [])
   ++ [EvReset Raw; EvTagHash (GetHash B); EvLog "trace" "tcp knock"]
   ++ (if decide ((0 < n)%nat ∧ GetHash B ∉ knownHashes s)
       then [EvStoreSend (mkFile (GetHash B) "raw" B)] else [])
   ++ [EvReset Raw]
   ++ match Match (tcpRules s) buf with
      | Some ln => [EvDeliver ln Raw root]
      | None => (if decide (0 < n)%nat then [EvLog "debug" "no driver"] else [])
                ++ [EvMucClose Raw]
      end
   ++ [EvWgDone])%list.

(** [n] calls, one after the other. *)
Fixpoint calls (net_Listen : string → error + Listener) (port : Z) (n : nat)
    : M unit :=
  match n with
  | O => mret tt
  | S n => CreateTCPListener net_Listen port;; calls net_Listen port n
  end.

(** ** What a method puts on the trace *)

(** Every event a method adds to the trace satisfies [P]. *)
Definition emits {A} (P : Event → Prop) (m : M A) : Prop :=
  ∀ st, ∃ new, trace (m st).2 = (trace st ++ new)%list ∧ Forall P new.

(** The events of the handler itself: the socket, the sniffer, its two
    helper tasks, the capture channel and the driver. *)
Definition handler_event (e : Event) : Prop :=
  match e with
  | EvCreateTCPListener _ | EvListen _ _ | EvSpawnAccept _
  | EvWriteFile _ _ _ | EvUpload _ _ _ _ | EvMkdir _ _ | EvNewUploader
  | EvWgDone => False
  | _ => True
  end.

(** The accept tasks a trace has started, in order. *)
Definition accept_tasks (tr : list Event) : list Listener :=
  omap (fun e => match e with EvSpawnAccept ln => Some ln | _ => None end) tr.

(** An event that starts no accept task. *)
Definition no_accept (e : Event) : Prop :=
  match e with EvSpawnAccept _ => False | _ => True end.

(** A method leaves a part of the state, picked by [proj], as it found it. *)
Definition keeps_on {X A} (proj : State → X) (m : M A) : Prop :=
  ∀ st, proj (m st).2 = proj st.

(** Everything in the state but the ban list and the trace. *)
Definition but_bans (st : State) :=
  (fs st, config (cm st), addresses (cm st), tcpListeners (cm st),
   knownHashes (cm st), tcpRules (cm st), uploader (cm st), Sanitize (cm st)).

(** ** The loop of the observer *)

(** The turns of the loop of [tcpManager] for the packets of successive
    successful reads; the loop runs in one task, one packet after the
    other. *)
Fixpoint tcpManager_packets (net_Listen : string → error + Listener)
    (pkts : list TCPPacket) : M unit :=
  match pkts with
  | [] => mret tt
  | pkt :: rest =>
      tcpManager_packet net_Listen pkt;; tcpManager_packets net_Listen rest
  end.

(** The operating system grants the bind of [addr]. *)
Definition grants (net_Listen : string → error + Listener) (addr : string)
    : Prop :=
  ∃ ln, net_Listen addr = inr ln.

(** The address [CreateTCPListener] binds for [port]. *)
Definition listen_addr (s : ConnectionManager) (port : Z) : string :=
  bindAddress s +:+ ":" +:+ pretty port.

(** An address [CreateTCPListener] may pick with "public". *)
Definition public4 (a : IP) : Prop :=
  ip_private a = false ∧ ip_is4 a = true.

(** ** The paths of the handler *)

(** From the new sniffer to the cancelling of the banner and timeout
    tasks. *)
Definition sniff_events (conn : Conn) (root : Listener) : list Event :=
  ([EvNewMuxConn; EvStartSniffing; EvSpawnBanner (ln_port root `mod` 65536);
    EvSpawnTimeout; EvRead (sniffed_n conn) (read_err conn)]
   ++ match read_err conn with
      | Some (Err _) =>
          [EvLog "debug" "error reading from sniffer"; EvMucClose Raw]
      | _ => []
      end
   ++ [EvBannerCancel; EvTimeoutCancel])%list.

(** From the reset of the sniffer to the hand-over, on the connection
    [muc] with the buffer [buf] and the count [n]. *)
Definition route_events (GetHash : list byte → string) (s : ConnectionManager)
    (root : Listener) (muc : MuxConn) (buf : list byte) (n : nat)
    : list Event :=
  let B := take n buf in
  ([EvReset muc; EvTagHash (GetHash B); EvLog "trace" "tcp knock"]
   ++ (if decide ((0 < n)%nat ∧ GetHash B ∉ knownHashes s)
       then [EvStoreSend (mkFile (GetHash B) "raw" B)] else [])
   ++ [EvReset muc]
   ++ match Match (tcpRules s) buf with
      | Some ln => [EvDeliver ln muc root]
      | None => (if decide (0 < n)%nat then [EvLog "debug" "no driver"] else [])
                ++ [EvMucClose muc]
      end)%list.

(** The effects of the handler when [unwrapTLS] has answered the buffer
    [newBuf] and the count [newN]. *)
Definition unwrapped_events (GetHash : list byte → string)
    (s : ConnectionManager) (conn : Conn) (root : Listener)
    (newBuf : list byte) (newN : nat) : list Event :=
  (sniff_events conn root ++ [EvDoneSniffing; EvUnwrapTLS true]
   ++ route_events GetHash s root Cleartext newBuf newN ++ [EvWgDone])%list.

(** The state the handler leaves when it has added [new] to the trace of
    a connection from [ip]. *)
Definition handled (ip : string) (st : State) (new : list Event) : State :=
  mkState (cm (tickBan ip st).2) (fs st) (trace st ++ new).


(** The five ways the handler can go, with its result and its events. *)
Inductive handler_path (GetHash : list byte → string) (conn : Conn)
    (root : Listener) (st : State) : result unit → list Event → Prop :=
  | path_banned :
      handler_path GetHash conn root st (Ret tt) [EvConnClose; EvWgDone]
  | path_not_tcp :
      handler_path GetHash conn root st
        (Panic "interface conversion: not *net.TCPAddr")
        [EvNewMuxConn; EvStartSniffing; EvWgDone]
  | path_plain :
      handler_path GetHash conn root st (Ret tt)
        (plain_events GetHash (cm st) conn root)
  | path_unwrapped newBuf newN :
      (newN ≤ length newBuf)%nat →
      handler_path GetHash conn root st (Ret tt)
        (unwrapped_events GetHash (cm st) conn root newBuf newN)
  | path_overflow :
      handler_path GetHash conn root st (Panic "slice bounds out of range")
        (sniff_events conn root
         ++ [EvDoneSniffing; EvUnwrapTLS true; EvReset Cleartext; EvWgDone]).

(** The records a trace sends on the capture channel, the hashes it tags
    contexts with, and the hand-overs to drivers, each in order. *)
Definition sends (tr : list Event) : list File :=
  omap (fun e => match e with EvStoreSend f => Some f | _ => None end) tr.
Definition tags (tr : list Event) : list string :=
  omap (fun e => match e with EvTagHash h => Some h | _ => None end) tr.
Definition deliveries (tr : list Event)
    : list (MuxListener * MuxConn * Listener) :=
  omap (fun e => match e with
                 | EvDeliver ln m r => Some (ln, m, r)
                 | _ => None
                 end) tr.

(** ** The file system under [setupStore] and [Store] *)

(** The file system after [mkdir] has made the directory [p]. *)
Definition add_dir (p : list string) (f : FS) : FS :=
  mkFS ({[p]} ∪ dirs f) (files f) (cwd f) (fault f).

(** The file system after a file was written at [p]. *)
Definition put_file (p : list string) (data : list byte) (f : FS) : FS :=
  mkFS (dirs f) (<[p := data]> (files f)) (cwd f) (fault f).




(** ** More fixtures *)



(** A manager told to bind on its public address, on a host with a
    loopback, a private, two public IPv4 and one IPv6 address. *)
Definition public_manager : ConnectionManager :=
  mkCM (mkConfig 10000 "public" 3 EmptyString "pot" EmptyString)
       [mkIP true true "127.0.0.1"; mkIP false true "198.51.100.7";
        mkIP true true "10.0.0.5"; mkIP false true "203.0.113.9";
        mkIP false false "2001:db8::1"]
       ∅ ∅ ∅ rdp_rules false (fun data => data).

(** The fixture after a SYN for port 4444, and then one for port 22. *)
Definition one_listener : State :=
  (tcpManager_packet (listen_ok 4444) (mkTCPPacket 2 4444) demo_state).2.
Definition two_listeners : State :=
  (tcpManager_packet (listen_ok 22) (mkTCPPacket 2 22) one_listener).2.

(** ** The reads of the observer *)

(** What [conn.ReadFrom(buf)] answers: the bytes of a packet, or an error
    together with the address it returns, which is [nil] or has a
    [String()]. *)
Inductive ReadFrom :=
  | ReadOk (data : list byte)
  | ReadErr (addr : option string) (err : error).

Section Observer.
(** [pkt.Decode], which fills a packet from the bytes read; its code is in
    package probe. *)
Variable Decode : list byte → TCPPacket.

(** One turn of the loop of [tcpManager].  On an error the log line is
    built with [addr.String()], a call on a nil interface when no address
    came with the error. *)
Definition tcpManager_turn (net_Listen : string → error + Listener)
    (r : ReadFrom) : M unit :=
  match r with
  | ReadErr addr err =>
      match addr with
      | Some a => emit (EvLog "trace" "reading socket")
      | None => panic "invalid memory address or nil pointer dereference"
      end
  | ReadOk data => tcpManager_packet net_Listen (Decode data)
  end.

(** The loop over successive reads. *)
Fixpoint tcpManager_loop (net_Listen : string → error + Listener)
    (reads : list ReadFrom) : M unit :=
  match reads with
  | [] => mret tt
  | r :: rest =>
      tcpManager_turn net_Listen r;; tcpManager_loop net_Listen rest
  end.

(** The packets of the reads that succeeded. *)
Definition packets (reads : list ReadFrom) : list TCPPacket :=
  omap (fun r => match r with
                 | ReadOk data => Some (Decode data)
                 | ReadErr _ _ => None
                 end) reads.
End Observer.

(** A read that failed and brought no address. *)
Definition nil_addr (r : ReadFrom) : Prop :=
  match r with ReadErr None _ => True | _ => False end.

(** * Properties *)

(** ** Traces *)

(** What was added to a trace is what is left when the old part is dropped. *)
Lemma drop_trace (tr new : list Event) : drop (length tr) (tr ++ new) = new.
Proof. apply drop_app_length. Qed.

Ltac trace_norm :=
  simpl; repeat rewrite <- app_assoc; simpl; try rewrite drop_trace.

(** ** What the methods leave alone *)

Section Keeps.
Context {A B : Type}.

Lemma keeps_ret (a : A) : keeps (mret a : M A).
Proof. intros st. reflexivity. Qed.

Lemma keeps_panic msg : keeps (panic msg : M A).
Proof. intros st. reflexivity. Qed.

Lemma keeps_bind (m : M A) (f : A → M B) :
  keeps m → (∀ a, keeps (f a)) → keeps (m ≫= f).
Proof.
  intros Hm Hf st. unfold mbind, M_bind.
  specialize (Hm st). destruct (m st) as [[a|msg] st']; simpl in *.
  - rewrite Hf. exact Hm.
  - exact Hm.
Qed.

Lemma keeps_gets (f : ConnectionManager → A) : keeps (gets f).
Proof. intros st. reflexivity. Qed.

Lemma keeps_defer (d : M unit) (m : M A) : keeps d → keeps m → keeps (defer d m).
Proof.
  intros Hd Hm st. unfold defer. specialize (Hm st).
  destruct (m st) as [r st']. simpl in *. rewrite Hd. exact Hm.
Qed.
End Keeps.

Lemma keeps_emit e : keeps (emit e).
Proof. intros st. reflexivity. Qed.

Lemma keeps_get_fs : keeps get_fs.
Proof. intros st. reflexivity. Qed.

Lemma keeps_modify_fs f : keeps (modify_fs f).
Proof. intros st. reflexivity. Qed.

Lemma keeps_set_banList b : keeps (modify_cm (set_banList b)).
Proof. intros st. reflexivity. Qed.

Lemma keeps_set_uploader u : keeps (modify_cm (set_uploader u)).
Proof. intros st. reflexivity. Qed.

Lemma keeps_set_OutputFolder f :
  keeps (modify_cm (fun s => set_config (set_OutputFolder f (config s)) s)).
Proof. intros st. reflexivity. Qed.

(** Splits a goal [keeps m] along the structure of [m]. *)
Ltac keeps_step :=
  first
    [ apply keeps_ret | apply keeps_panic | apply keeps_emit | apply keeps_gets
    | apply keeps_get_fs | apply keeps_modify_fs | apply keeps_set_banList
    | apply keeps_set_uploader | apply keeps_set_OutputFolder
    | apply keeps_defer
    | apply keeps_bind; [ | intros ? ]
    | progress case_match ].
Ltac keeps_tac := repeat keeps_step.

Lemma keeps_tickBan ip : keeps (tickBan ip).
Proof. unfold tickBan. keeps_tac. Qed.

(** The handler changes the ban list and the trace, nothing else. *)
Lemma keeps_handleConnection GetHash conn root :
  keeps (handleConnection GetHash conn root).
Proof.
  unfold handleConnection, slice, index.
  keeps_tac; try apply keeps_tickBan.
Qed.

Lemma keeps_os_Mkdir path : keeps (os_Mkdir path).
Proof. unfold os_Mkdir. keeps_tac. Qed.

Lemma keeps_ioutil_WriteFile path data : keeps (ioutil_WriteFile path data).
Proof. unfold ioutil_WriteFile. keeps_tac. Qed.

Lemma keeps_Store s3 filename location data :
  keeps (Store s3 filename location data).
Proof. unfold Store. keeps_tac; apply keeps_ioutil_WriteFile. Qed.

Lemma keeps_setupStore : keeps setupStore.
Proof.
  unfold setupStore, os_Getwd. keeps_tac; apply keeps_os_Mkdir.
Qed.

(** ** The listener registry *)

(** [bounded] looks at the shared part only. *)
Lemma bounded_shared st st' : shared st' = shared st → bounded st → bounded st'.
Proof.
  unfold shared, bounded. intros Heq Hb p ln.
  injection Heq as Hl Hm _ _. rewrite Hl, Hm. apply Hb.
Qed.

(** [CreateTCPListener] goes one of the four ways. *)
Lemma CreateTCPListener_outcome net_Listen port st :
  create_outcome net_Listen port st (CreateTCPListener net_Listen port st).
Proof.
  unfold CreateTCPListener, mbind, M_bind, gets. simpl.
  destruct (decide (MaxPort (config (cm st)) < port)) as [Hgt|Hle].
  - assert (st = mkState (cm st) (fs st) (trace st)) as Hst by (destruct st; done).
    apply create_rejected. exact Hgt.
  - apply Z.nlt_ge in Hle.
    destruct (tcpListeners (cm st) !! port) as [ln|] eqn:Hlk.
    + eapply create_present; eauto.
    + destruct (net_Listen _) as [err|ln] eqn:HL; simpl.
      * apply create_failed; auto.
      * unfold emit, modify_cm; simpl. rewrite <- app_assoc. simpl.
        apply create_bound; auto.
Qed.

(** An entry is only made for a port at or below the limit. *)
Lemma CreateTCPListener_bounded net_Listen port st :
  bounded st → bounded (CreateTCPListener net_Listen port st).2.
Proof.
  intros Hb.
  destruct (CreateTCPListener_outcome net_Listen port st); simpl; auto.
  intros p l. simpl. rewrite lookup_insert. case_decide; [|apply Hb].
  subst. intros _. assumption.
Qed.

Lemma tcpManager_packet_bounded net_Listen pkt st :
  bounded st → bounded (tcpManager_packet net_Listen pkt st).2.
Proof.
  intros Hb. unfold tcpManager_packet.
  destruct (decide _); [|exact Hb].
  unfold mbind, M_bind. simpl.
  pose proof (CreateTCPListener_bounded net_Listen (DestPort pkt)
                (mkState (cm st) (fs st) (trace st ++ [EvCreateTCPListener (DestPort pkt)]))
                Hb) as Hc.
  destruct (CreateTCPListener _ _ _) as [[[known err]|msg] st1]; simpl in *; auto.
  destruct err, known; simpl; exact Hc.
Qed.

Lemma step_bounded st st' : step st st' → bounded st → bounded st'.
Proof.
  destruct 1; intros Hb.
  - by apply CreateTCPListener_bounded.
  - by apply tcpManager_packet_bounded.
  - eapply bounded_shared; [apply keeps_handleConnection | done].
  - eapply bounded_shared; [apply keeps_Store | done].
  - eapply bounded_shared; [apply keeps_setupStore | done].
Qed.

(** The registry of a run never holds a port above the limit. *)
Lemma reachable_bounded st : reachable st → bounded st.
Proof.
  induction 1 as [st Hempty | st st' _ IH Hstep].
  - intros p ln. rewrite Hempty, lookup_empty. discriminate.
  - eapply step_bounded; eauto.
Qed.

(** C6: for a port above [MaxPort], [CreateTCPListener] returns the error
    "above config.Maxport" and leaves the whole state as it was: no bind is
    attempted, nothing is inserted, no accept task is started.  In every
    state a run can reach the registry has no entry for such a port. *)
Theorem CreateTCPListener_above_MaxPort net_Listen port st :
  MaxPort (config (cm st)) < port →
  (reachable st → tcpListeners (cm st) !! port = None) ∧
  CreateTCPListener net_Listen port st
  = (Ret (false, Some (Err "above config.Maxport")), st).
Proof.
  intros Hgt. split.
  - intros Hr. destruct (tcpListeners (cm st) !! port) as [ln|] eqn:Hlk; [|done].
    apply reachable_bounded in Hr. specialize (Hr port ln Hlk). lia.
  - destruct (CreateTCPListener_outcome net_Listen port st); first done; lia.
Qed.

(** Port 10001 with the limit at 10000. *)
Lemma CreateTCPListener_above_MaxPort_witness :
  MaxPort (config (cm demo_state)) < 10001 ∧
  tcpListeners (cm demo_state) !! 10001 = None ∧
  CreateTCPListener (listen_ok 10001) 10001 demo_state
  = (Ret (false, Some (Err "above config.Maxport")), demo_state).
Proof.
  assert (MaxPort (config (cm demo_state)) < 10001) as H by (simpl; lia).
  split; [exact H|].
  destruct (CreateTCPListener_above_MaxPort (listen_ok 10001) 10001 demo_state H)
    as [Hreg Hcall].
  split; [apply Hreg; apply reachable_start; reflexivity | exact Hcall].
Defined.

(** C7: in a state a run can reach, a call for a port that has an entry in
    the registry returns [(true, nil)] and leaves the whole state as it
    was: the registry and its listener are the same and the trace has no
    new bind and no new accept task. *)
Theorem CreateTCPListener_idempotent net_Listen port st :
  reachable st →
  is_Some (tcpListeners (cm st) !! port) →
  CreateTCPListener net_Listen port st = (Ret (true, None), st).
Proof.
  intros Hr [ln Hlk]. apply reachable_bounded in Hr. specialize (Hr port ln Hlk).
  destruct (CreateTCPListener_outcome net_Listen port st); first lia; first done;
    congruence.
Qed.

(** The second call for port 4444. *)
Lemma CreateTCPListener_idempotent_witness :
  let st := (CreateTCPListener (listen_ok 4444) 4444 demo_state).2 in
  is_Some (tcpListeners (cm st) !! 4444) ∧
  CreateTCPListener (listen_ok 4444) 4444 st = (Ret (true, None), st).
Proof.
  set (st := (CreateTCPListener (listen_ok 4444) 4444 demo_state).2).
  assert (is_Some (tcpListeners (cm st) !! 4444)) as H by (vm_compute; eauto).
  split; [exact H|].
  apply (CreateTCPListener_idempotent (listen_ok 4444) 4444 st); [|exact H].
  apply (reachable_step demo_state);
    [apply reachable_start; reflexivity | apply step_CreateTCPListener].
Defined.

(** Calls for a port that is registered change nothing. *)
Lemma calls_present net_Listen port n st :
  port ≤ MaxPort (config (cm st)) →
  is_Some (tcpListeners (cm st) !! port) →
  calls net_Listen port n st = (Ret tt, st).
Proof.
  intros Hle [ln Hlk]. induction n as [|n IH]; [reflexivity|].
  simpl. unfold mbind, M_bind.
  destruct (CreateTCPListener_outcome net_Listen port st);
    [lia | exact IH | congruence | congruence].
Qed.

(** X1: calls made one after the other for a free port at or below the limit,
    on a system that grants the bind: the first binds and registers the
    listener and starts its accept task, the others change nothing. *)
Lemma calls_bind_once net_Listen port n st ln :
  port ≤ MaxPort (config (cm st)) →
  tcpListeners (cm st) !! port = None →
  net_Listen (bindAddress (cm st) +:+ ":" +:+ pretty port) = inr ln →
  tcpListeners (cm (calls net_Listen port (S n) st).2)
  = <[port := ln]> (tcpListeners (cm st))
  ∧ events (calls net_Listen port (S n)) st
    = [EvListen (bindAddress (cm st) +:+ ":" +:+ pretty port) None;
       EvSpawnAccept ln].
Proof.
  intros Hle Hfree Hok. unfold events. simpl. unfold mbind, M_bind.
  destruct (CreateTCPListener_outcome net_Listen port st) as [?|l ? Hl|err ? ? He|l ? ? Hl];
    try lia; try congruence.
  rewrite calls_present.
  - simpl. rewrite drop_trace. split; congruence.
  - simpl. exact Hle.
  - simpl. rewrite lookup_insert_eq. eauto.
Qed.

(** Three calls for port 4444 bind it once. *)
Lemma calls_bind_once_witness :
  tcpListeners (cm (calls (listen_ok 4444) 4444 3 demo_state).2)
  = <[4444 := mkListener "0.0.0.0:4444" 4444]> (tcpListeners (cm demo_state))
  ∧ events (calls (listen_ok 4444) 4444 3) demo_state
    = [EvListen (bindAddress (cm demo_state) +:+ ":" +:+ pretty 4444) None;
       EvSpawnAccept (mkListener "0.0.0.0:4444" 4444)].
Proof.
  apply (calls_bind_once (listen_ok 4444) 4444 2 demo_state
           (mkListener "0.0.0.0:4444" 4444)).
  - simpl. lia.
  - reflexivity.
  - vm_compute. reflexivity.
Defined.

(** ** The raw SYN observer *)

(** C5, amended: a packet makes the observer call [CreateTCPListener] for
    the port [p] exactly when [p] is the packet's destination port and its
    SYN flag is set; the ACK flag plays no part. *)
Theorem tcpManager_requests_on_SYN net_Listen pkt st p :
  EvCreateTCPListener p ∈ events (tcpManager_packet net_Listen pkt) st
  ↔ p = DestPort pkt ∧ flag_set SYN pkt.
Proof.
  unfold events, tcpManager_packet, flag_set.
  destruct (decide (Z.land (Flags pkt) SYN ≠ 0)) as [Hsyn|Hno].
  - unfold mbind, M_bind. simpl.
    destruct (CreateTCPListener_outcome net_Listen (DestPort pkt)
      (mkState (cm st) (fs st) (trace st ++ [EvCreateTCPListener (DestPort pkt)])));
      trace_norm; rewrite ?elem_of_cons, elem_of_nil; split;
      try (intros [-> _]; left; reflexivity);
      intros Hin; split; try exact Hsyn;
      repeat (destruct Hin as [Hin|Hin]; [congruence|]); try done.
  - simpl. rewrite drop_all, elem_of_nil. tauto.
Qed.

(** C5 as stated fails: a packet with SYN and ACK both set (flags 0x12)
    makes the observer ask for a listener on its destination port. *)
Lemma tcpManager_requests_on_SYN_ACK :
  let pkt := mkTCPPacket 18 4444 in
  ¬ (EvCreateTCPListener (DestPort pkt)
       ∈ events (tcpManager_packet (listen_ok 4444) pkt) demo_state
     ↔ flag_set SYN pkt ∧ ¬ flag_set ACK pkt).
Proof.
  intros pkt [Hreq _].
  assert (EvCreateTCPListener (DestPort pkt)
            ∈ events (tcpManager_packet (listen_ok 4444) pkt) demo_state) as Hin.
  { vm_compute. apply list_elem_of_here. }
  destruct (Hreq Hin) as [_ Hack]. apply Hack. unfold flag_set. simpl. discriminate.
Qed.

(** ** The rule table *)

(** The fold of [Match] over the table: nothing is kept exactly when nothing
    matches. *)
Lemma foldl_better_None buf rules best :
  foldl (better buf) best rules = None
  ↔ best = None ∧ ∀ r, r ∈ rules → hasPrefix buf r.1 = false.
Proof.
  revert best. induction rules as [|x rules IH]; intros best; simpl.
  - split; [intros ->; split; [done|] | tauto].
    intros r Hr. by apply elem_of_nil in Hr.
  - rewrite IH. unfold better at 1. split.
    + intros [Hb Hall]. destruct (hasPrefix buf x.1) eqn:Hx.
      * destruct best as [b|]; [|discriminate]. by destruct (decide _).
      * split; [done|]. intros r Hr. apply elem_of_cons in Hr as [->|Hr]; auto.
    + intros [-> Hall]. rewrite (Hall x) by apply list_elem_of_here.
      split; [done|]. intros r Hr. apply Hall. by apply list_elem_of_further.
Qed.

(** What the fold keeps matches the buffer and is at least as long as the
    entry it started from and as every matching entry of the table. *)
Lemma foldl_better_Some buf rules best r :
  foldl (better buf) best rules = Some r →
  (best = Some r ∨ (r ∈ rules ∧ hasPrefix buf r.1 = true)) ∧
  (∀ b, best = Some b → (length b.1 ≤ length r.1)%nat) ∧
  (∀ r', r' ∈ rules → hasPrefix buf r'.1 = true →
         (length r'.1 ≤ length r.1)%nat).
Proof.
  revert best. induction rules as [|x rules IH]; intros best; simpl.
  - intros ->. split; [by left|]. split.
    + intros b [= ->]. done.
    + intros r' Hr'. by apply elem_of_nil in Hr'.
  - intros Hfold. destruct (IH _ Hfold) as (Horigin & Hbest & Hrules).
    unfold better in Horigin, Hbest.
    destruct (hasPrefix buf x.1) eqn:Hx.
    + destruct best as [b|].
      * destruct (decide (length b.1 < length x.1)%nat) as [Hlt|Hge].
        -- specialize (Hbest x eq_refl). split; [|split].
           ++ right. destruct Horigin as [[= <-]|[Hin Hp]].
              ** split; [apply list_elem_of_here | done].
              ** split; [by apply list_elem_of_further | done].
           ++ intros b' [= <-]. lia.
           ++ intros r' Hr' Hp'. apply elem_of_cons in Hr' as [->|Hr']; auto.
        -- specialize (Hbest b eq_refl). split; [|split].
           ++ destruct Horigin as [Heq|[Hin Hp]]; [by left|].
              right. split; [by apply list_elem_of_further | done].
           ++ intros b' [= <-]. done.
           ++ intros r' Hr' Hp'. apply elem_of_cons in Hr' as [->|Hr']; auto. lia.
      * specialize (Hbest x eq_refl). split; [|split].
        -- right. destruct Horigin as [[= <-]|[Hin Hp]].
           ++ split; [apply list_elem_of_here | done].
           ++ split; [by apply list_elem_of_further | done].
        -- intros b' [=].
        -- intros r' Hr' Hp'. apply elem_of_cons in Hr' as [->|Hr']; auto.
    + split; [|split].
      * destruct Horigin as [Heq|[Hin Hp]]; [by left|].
        right. split; [by apply list_elem_of_further | done].
      * exact Hbest.
      * intros r' Hr' Hp'. apply elem_of_cons in Hr' as [->|Hr']; auto. congruence.
Qed.

(** [Match] answers an entry whose pattern is a prefix of the buffer and
    at least as long as every other registered prefix of it. *)
Lemma Match_longest_prefix rules buf ln :
  Match rules buf = Some ln →
  ∃ pat, (pat, ln) ∈ rules ∧ hasPrefix buf pat = true ∧
         ∀ pat' ln', (pat', ln') ∈ rules → hasPrefix buf pat' = true →
                     (length pat' ≤ length pat)%nat.
Proof.
  unfold Match. intros Hm.
  destruct (foldl (better buf) None rules) as [[pat l]|] eqn:Hfold; [|discriminate].
  simpl in Hm. injection Hm as ->.
  destruct (foldl_better_Some _ _ _ _ Hfold) as ([Hnone|[Hin Hp]] & _ & Hmax);
    [discriminate|].
  exists pat. split; [done|]. split; [done|].
  intros pat' ln' Hin' Hp'. apply (Hmax (pat', ln')); done.
Qed.

(** [Match] answers nothing exactly when no pattern is a prefix. *)
Lemma Match_None rules buf :
  Match rules buf = None
  ↔ ∀ pat ln, (pat, ln) ∈ rules → hasPrefix buf pat = false.
Proof.
  unfold Match. rewrite fmap_None, foldl_better_None. split.
  - intros [_ Hall] pat ln Hin. apply (Hall (pat, ln) Hin).
  - intros Hall. split; [done|]. intros [pat ln] Hin. by apply (Hall pat ln).
Qed.

(** ** The handler *)

(** [tickBan] in one step. *)
Lemma tickBan_eq ip st :
  tickBan ip st
  = (Ret (bool_decide (BanThreshold (config (cm st))
                       < default 0 (banList (cm st) !! ip) + 1)),
     mkState (set_banList (<[ip := default 0 (banList (cm st) !! ip) + 1]>
                             (banList (cm st))) (cm st))
             (fs st) (trace st)).
Proof. reflexivity. Qed.

(** C8: when the remote address is a TCP address and the ban tick answers
    true, the handler does [conn.Close()] and returns: besides the deferred
    [wg.Done()] that is its only effect, so no sniffer is made, nothing is
    read and neither the banner task nor the timeout task is started. *)
Theorem handleConnection_banned GetHash conn root st ip port :
  RemoteAddr conn = TCPAddr ip port →
  (tickBan ip st).1 = Ret true →
  handleConnection GetHash conn root st
  = (Ret tt, mkState (cm (tickBan ip st).2) (fs st)
               (trace st ++ [EvConnClose; EvWgDone]))
  ∧ events (handleConnection GetHash conn root) st = [EvConnClose; EvWgDone].
Proof.
  intros Haddr Hban.
  assert (handleConnection GetHash conn root st
          = (Ret tt, mkState (cm (tickBan ip st).2) (fs st)
                       (trace st ++ [EvConnClose; EvWgDone]))) as Heq.
  { unfold handleConnection, defer, mbind, M_bind. rewrite Haddr.
    rewrite tickBan_eq in *. simpl in Hban. injection Hban as ->.
    simpl. rewrite <- app_assoc. reflexivity. }
  split; [exact Heq|].
  unfold events. rewrite Heq. simpl. apply drop_trace.
Qed.

(** The fourth connection from 1.2.3.4 with a threshold of three. *)
Lemma handleConnection_banned_witness :
  (tickBan "1.2.3.4" banned_state).1 = Ret true ∧
  events (handleConnection demo_GetHash (knock "1.2.3.4" http_GET) http_root)
         banned_state
  = [EvConnClose; EvWgDone].
Proof.
  assert ((tickBan "1.2.3.4" banned_state).1 = Ret true) as H by reflexivity.
  split; [exact H|].
  exact (proj2 (handleConnection_banned demo_GetHash (knock "1.2.3.4" http_GET)
                  http_root banned_state "1.2.3.4" 40000 eq_refl H)).
Defined.


(** The buffer keeps its 1500 bytes, and its first [n] are the bytes read. *)
Lemma length_sniffed conn : length (sniffed conn) = 1500%nat.
Proof.
  unfold sniffed. rewrite length_app, length_drop, length_take.
  unfold make. rewrite length_replicate. lia.
Qed.

Lemma sniffed_n_le conn : (sniffed_n conn ≤ length (sniffed conn))%nat.
Proof. rewrite length_sniffed. unfold sniffed_n. rewrite length_take. lia. Qed.

Lemma take_sniffed conn : take (sniffed_n conn) (sniffed conn) = take 1500 (read_data conn).
Proof. unfold sniffed, sniffed_n. by rewrite take_app_length. Qed.

(** The handler, step by step, on a connection that is not banned and is
    not unwrapped. *)
Lemma handleConnection_plain GetHash conn root st ip port e :
  RemoteAddr conn = TCPAddr ip port →
  (tickBan ip st).1 = Ret false →
  tls_result conn = inl e →
  events (handleConnection GetHash conn root) st
  = plain_events GetHash (cm st) conn root.
Proof.
  intros Haddr Hban Htls.
  unfold events, plain_events, handleConnection, Read, defer, mbind, M_bind.
  rewrite Haddr. rewrite tickBan_eq in *. simpl in Hban. injection Hban as Hban.
  rewrite Hban. cbn [fst snd].
  change (length (make 1500)) with 1500%nat.
  fold (sniffed conn). fold (sniffed_n conn).
  pose proof (length_sniffed conn) as Hlen.
  pose proof (sniffed_n_le conn) as Hn.
  pose proof (take_sniffed conn) as Htake.
  generalize dependent (sniffed_n conn). generalize dependent (sniffed conn).
  generalize (take 1500 (read_data conn)).
  intros B [|b0 buf] Hlen n Hn Htake; [discriminate|].
  unfold index, slice, slice_to. rewrite Htls.
  destruct (read_err conn) as [[|m]|]; simpl;
    destruct (Byte.eqb b0 x16); simpl;
    (destruct (decide (n ≤ _)%nat) as [_|?]; [|simpl in Hn; lia]);
    rewrite ?Htake; simpl;
    destruct (decide (0 < n)%nat); simpl;
    try (destruct (decide (GetHash B ∈ knownHashes (cm st))); simpl);
    try (destruct (decide (n ≤ _)%nat) as [_|?]; [|simpl in Hn; lia]);
    rewrite ?Htake; simpl;
    destruct (Match (tcpRules (cm st)) (b0 :: buf)); simpl;
    try (destruct (decide (0 < n)%nat); [|lia]); simpl;
    repeat rewrite <- app_assoc; simpl; rewrite drop_trace;
    repeat (destruct (decide _); try tauto); try reflexivity.
Qed.



(** C1: the handler looks the hash up in [knownHashes] and never adds it.
    Two clients that send the same first bytes make it send two records
    for the bucket "raw" under the same name, and the set stays empty. *)
Theorem same_fingerprint_sent_twice (GetHash : list byte → string) :
  let st1 :=
    (handleConnection GetHash (knock "1.2.3.4" http_GET) http_root demo_state).2 in
  let st2 :=
    (handleConnection GetHash (knock "5.6.7.8" http_GET) http_root st1).2 in
  knownHashes (cm st2) = knownHashes (cm demo_state) ∧
  raw_sends (trace st2)
  = [mkFile (GetHash http_GET) "raw" http_GET;
     mkFile (GetHash http_GET) "raw" http_GET].
Proof.
  split.
  - vm_compute. reflexivity.
  - vm_compute. reflexivity.
Qed.

(** X2: the handler hands the connection to the driver that [Match] finds for
    the whole buffer: the bytes read followed by zeros up to 1500. *)
Lemma handleConnection_routes_on_padded_buffer GetHash conn root st ip port e ln :
  RemoteAddr conn = TCPAddr ip port →
  (tickBan ip st).1 = Ret false →
  tls_result conn = inl e →
  EvDeliver ln Raw root ∈ events (handleConnection GetHash conn root) st
  ↔ Match (tcpRules (cm st)) (sniffed conn) = Some ln.
Proof.
  intros Haddr Hban Htls.
  rewrite (handleConnection_plain _ _ _ _ _ _ _ Haddr Hban Htls).
  unfold plain_events.
  destruct (Match (tcpRules (cm st)) (sniffed conn)) as [l|].
  - split.
    + intros Hin. repeat (apply elem_of_app in Hin as [Hin|Hin]);
        repeat case_match;
        repeat (apply elem_of_cons in Hin as [Hin|Hin]; try discriminate);
        try (by apply elem_of_nil in Hin).
      congruence.
    + intros [= ->]. do 7 (apply elem_of_app; right).
      apply elem_of_app. left. apply list_elem_of_here.
  - split; [|discriminate].
    intros Hin. repeat (apply elem_of_app in Hin as [Hin|Hin]);
      repeat case_match;
      repeat (apply elem_of_cons in Hin as [Hin|Hin]; try discriminate);
      try (by apply elem_of_nil in Hin).
Qed.

(** The single byte 03 reaches the rdp driver. *)
Lemma handleConnection_routes_on_padded_buffer_witness :
  EvDeliver rdp Raw rdp_root
    ∈ events (handleConnection demo_GetHash (knock "1.2.3.4" [x03]) rdp_root)
             demo_state.
Proof.
  apply (handleConnection_routes_on_padded_buffer demo_GetHash
           (knock "1.2.3.4" [x03]) rdp_root demo_state "1.2.3.4" 40000
           (Err "tls: handshake failure") rdp).
  - reflexivity.
  - reflexivity.
  - reflexivity.
  - vm_compute. reflexivity.
Defined.

(** C2: the rule table is asked about the whole 1500-byte buffer, not the
    bytes read.  A client that sends the single byte 03 is handed to the
    rdp driver, whose pattern 03 00 00 is completed by the zero bytes the
    buffer was made with, although no pattern is a prefix of what was
    read. *)
Theorem short_read_matched_through_padding (GetHash : list byte → string) :
  let B := [x03] in
  (∀ pat ln, (pat, ln) ∈ tcpRules (cm demo_state) → hasPrefix B pat = false) ∧
  Match (tcpRules (cm demo_state)) B = None ∧
  events (handleConnection GetHash (knock "1.2.3.4" B) rdp_root) demo_state
  = [EvNewMuxConn; EvStartSniffing; EvSpawnBanner 3389; EvSpawnTimeout;
     EvRead 1 None; EvBannerCancel; EvTimeoutCancel; EvReset Raw;
     EvTagHash (GetHash B); EvLog "trace" "tcp knock";
     EvStoreSend (mkFile (GetHash B) "raw" B);
     EvReset Raw; EvDeliver rdp Raw rdp_root; EvWgDone].
Proof.
  split; [|split].
  - intros pat ln Hin. simpl in Hin. unfold rdp_rules in Hin. simpl in Hin.
    apply list_elem_of_singleton in Hin. injection Hin as -> _. reflexivity.
  - reflexivity.
  - vm_compute. reflexivity.
Qed.



(** C3: after a read error that is not EOF the handler closes the
    connection and goes on.  For a client that stays silent until the
    timeout task closes the socket under the read, it still resets the
    sniffer, tags the context with the hash, logs the knock, asks the rule
    table, and closes a second time. *)
Theorem read_error_does_not_return (GetHash : list byte → string) :
  events (handleConnection GetHash (idle "1.2.3.4") rdp_root) demo_state
  = [EvNewMuxConn; EvStartSniffing; EvSpawnBanner 3389; EvSpawnTimeout;
     EvRead 0 (Some (Err "use of closed network connection"));
     EvLog "debug" "error reading from sniffer"; EvMucClose Raw;
     EvBannerCancel; EvTimeoutCancel; EvReset Raw;
     EvTagHash (GetHash []); EvLog "trace" "tcp knock";
     EvReset Raw; EvMucClose Raw; EvWgDone].
Proof. vm_compute. reflexivity. Qed.

(** When the failing read has delivered bytes, the closed connection also
    gets its raw record sent and is handed to a driver. *)
Example read_error_with_bytes_is_routed (GetHash : list byte → string) :
  let B := [x03; x00; x00] in
  let conn := mkConn (TCPAddr "1.2.3.4" 40000) B
                     (Some (Err "read: connection reset by peer"))
                     (inl (Err "tls: handshake failure")) in
  events (handleConnection GetHash conn rdp_root) demo_state
  = [EvNewMuxConn; EvStartSniffing; EvSpawnBanner 3389; EvSpawnTimeout;
     EvRead 3 (Some (Err "read: connection reset by peer"));
     EvLog "debug" "error reading from sniffer"; EvMucClose Raw;
     EvBannerCancel; EvTimeoutCancel; EvReset Raw;
     EvTagHash (GetHash B); EvLog "trace" "tcp knock";
     EvStoreSend (mkFile (GetHash B) "raw" B);
     EvReset Raw; EvDeliver rdp Raw rdp_root; EvWgDone].
Proof. vm_compute. reflexivity. Qed.

(** ** Store *)

(** The effects of [Store], sink by sink. *)
Lemma Store_events s3 filename location data st :
  events (Store s3 filename location data) st
  = ((if decide (OutputFolder (config (cm st)) ≠ EmptyString) then
        EvWriteFile (local_path (cm st) filename location)
                    (Sanitize (cm st) data)
                    (write_error (fs st) (local_path (cm st) filename location))
        :: log_error (write_error (fs st) (local_path (cm st) filename location))
      else [])
     ++ (if uploader (cm st) then
           EvUpload (S3Bucket (config (cm st))) (location +:+ "/" +:+ filename)
                    data s3
           :: log_error s3
         else []))%list.
Proof.
  unfold events, Store, ioutil_WriteFile, write_error, local_path,
    mbind, M_bind, gets, get_fs.
  simpl. destruct (decide _) as [Hout|Hout]; simpl.
  - destruct (write_result _ _) as [e|p]; simpl;
      destruct (uploader (cm st)); simpl; try destruct s3; trace_norm;
      reflexivity.
  - destruct (uploader (cm st)); simpl; try destruct s3; trace_norm;
      try reflexivity; rewrite drop_all; reflexivity.
Qed.

(** C10: [Store] hands [Sanitize data] to the local write and [data]
    itself to the upload.  Every write it performs carries the sanitized
    bytes, every upload the original ones; when an uploader is configured
    the upload is performed whatever the local write answered, also after
    a write that failed. *)
Theorem Store_sanitizes_local_sink_only s3 filename location data st :
  (∀ path body res,
     EvWriteFile path body res ∈ events (Store s3 filename location data) st →
     body = Sanitize (cm st) data) ∧
  (∀ bucket key body res,
     EvUpload bucket key body res ∈ events (Store s3 filename location data) st →
     body = data) ∧
  (OutputFolder (config (cm st)) ≠ EmptyString →
   EvWriteFile (local_path (cm st) filename location) (Sanitize (cm st) data)
               (write_error (fs st) (local_path (cm st) filename location))
     ∈ events (Store s3 filename location data) st) ∧
  (uploader (cm st) = true →
   EvUpload (S3Bucket (config (cm st))) (location +:+ "/" +:+ filename) data s3
     ∈ events (Store s3 filename location data) st).
Proof.
  rewrite Store_events.
  split; [|split; [|split]].
  - intros path body res.
    rewrite elem_of_app. intros [Hin|Hin].
    + destruct (decide _); [|by apply elem_of_nil in Hin].
      apply elem_of_cons in Hin as [Heq|Hin]; [congruence|].
      destruct (write_error _ _); simpl in Hin.
      * apply list_elem_of_singleton in Hin. discriminate.
      * by apply elem_of_nil in Hin.
    + destruct (uploader _); [|by apply elem_of_nil in Hin].
      apply elem_of_cons in Hin as [Heq|Hin]; [discriminate|].
      destruct s3; simpl in Hin.
      * apply list_elem_of_singleton in Hin. discriminate.
      * by apply elem_of_nil in Hin.
  - intros bucket key body res.
    rewrite elem_of_app. intros [Hin|Hin].
    + destruct (decide _); [|by apply elem_of_nil in Hin].
      apply elem_of_cons in Hin as [Heq|Hin]; [discriminate|].
      destruct (write_error _ _); simpl in Hin.
      * apply list_elem_of_singleton in Hin. discriminate.
      * by apply elem_of_nil in Hin.
    + destruct (uploader _); [|by apply elem_of_nil in Hin].
      apply elem_of_cons in Hin as [Heq|Hin]; [congruence|].
      destruct s3; simpl in Hin.
      * apply list_elem_of_singleton in Hin. discriminate.
      * by apply elem_of_nil in Hin.
  - intros Hout. apply elem_of_app. left.
    destruct (decide _); [|done]. apply list_elem_of_here.
  - intros ->. apply elem_of_app. right. apply list_elem_of_here.
Qed.

(** The write fails for want of the directory and the upload still runs;
    the sanitizer of the fixture puts an asterisk before the data. *)
Example Store_failed_write_still_uploads :
  events (Store None "abc" "raw" [x41]) demo_state
  = [EvWriteFile "/data//raw/abc" [x2a; x41] (Some ENOENT);
     EvLog "debug" "error saving raw data";
     EvUpload "pot" "raw/abc" [x41] None].
Proof. vm_compute. reflexivity. Qed.

(** ** setupStore *)

(** C9: [setupStore] makes its directories with [os.Mkdir] on
    [OutputFolder+"raw"] and [OutputFolder+"sessions"].  With the folder
    "/data/" and /data/raw already there the first [Mkdir] answers "file
    exists" and [setupStore] returns that error.  With the folder "/data"
    it succeeds, having made /dataraw and /datasessions: /data/raw, where
    [Store] writes, does not exist, and the write of a raw record fails. *)
Theorem setupStore_existing_or_unslashed_folder :
  (setupStore (with_OutputFolder "/data/" used_fs)).1 = Ret (Some EEXIST) ∧
  let st' := (setupStore (with_OutputFolder "/data" demo_fs)).2 in
  (setupStore (with_OutputFolder "/data" demo_fs)).1 = Ret None ∧
  trace st' = [EvMkdir "/dataraw" None; EvMkdir "/datasessions" None;
               EvNewUploader] ∧
  is_dir (fs st') ["data"; "raw"] = false ∧
  is_dir (fs st') ["data"; "sessions"] = false ∧
  events (Store None "abc" "raw" [x41]) st'
  = [EvWriteFile "/data/raw/abc" [x2a; x41] (Some ENOENT);
     EvLog "debug" "error saving raw data";
     EvUpload "pot" "raw/abc" [x41] None].
Proof. vm_compute. repeat split; reflexivity. Qed.

(** With a fresh folder whose name ends in a slash both directories are
    made. *)
Example setupStore_fresh_folder :
  let r := setupStore (with_OutputFolder "/data/" demo_fs) in
  r.1 = Ret None ∧
  is_dir (fs r.2) ["data"; "raw"] = true ∧
  is_dir (fs r.2) ["data"; "sessions"] = true.
Proof. vm_compute. repeat split; reflexivity. Qed.

(** X5: with the folder "." the configuration is rewritten to the working
    directory followed by a slash, whatever the two [Mkdir] answer. *)
Lemma setupStore_dot st c :
  OutputFolder (config (cm st)) = "." →
  cwd (fs st) = Some c →
  OutputFolder (config (cm (setupStore st).2)) = path_String c +:+ "/".
Proof.
  intros Hdot Hcwd.
  unfold setupStore, os_Getwd, mbind, M_bind, gets, get_fs.
  simpl. rewrite Hdot. simpl. rewrite Hcwd. simpl.
  destruct (decide (path_String c +:+ "/" ≠ EmptyString)) as [_|_]; simpl.
  - unfold os_Mkdir, mbind, M_bind, get_fs. simpl.
    destruct (mkdir_result _ _); simpl; [reflexivity|].
    destruct (mkdir_result _ _); simpl; [reflexivity|].
    destruct (decide _); reflexivity.
  - destruct (decide _); reflexivity.
Qed.

(** Started in /srv/pot with the folder ".". *)
Lemma setupStore_dot_witness :
  OutputFolder (config (cm (setupStore (with_OutputFolder "." demo_fs)).2))
  = path_String ["srv"; "pot"] +:+ "/".
Proof.
  apply (setupStore_dot (with_OutputFolder "." demo_fs) ["srv"; "pot"]).
  - reflexivity.
  - reflexivity.
Defined.


(** Started in /srv/pot with the folder ".": both directories are made
    under it. *)
Example setupStore_dot_example :
  let r := setupStore (with_OutputFolder "." 
             (mkFS {[ ["srv"]; ["srv"; "pot"] ]} ∅ (Some ["srv"; "pot"]) None)) in
  r.1 = Ret None ∧
  OutputFolder (config (cm r.2)) = "/srv/pot/" ∧
  is_dir (fs r.2) ["srv"; "pot"; "raw"] = true ∧
  is_dir (fs r.2) ["srv"; "pot"; "sessions"] = true.
Proof. vm_compute. repeat split; reflexivity. Qed.

(** * More of the code *)

Local Set Warnings "-clear-no-such-hyp".

(** ** What a method puts on the trace *)

Section Emits.
Context {A B : Type} (P : Event → Prop).

Lemma emits_ret (a : A) : emits P (mret a : M A).
Proof. intros st. exists []. split; [by rewrite app_nil_r | constructor]. Qed.

Lemma emits_panic msg : emits P (panic msg : M A).
Proof. intros st. exists []. split; [by rewrite app_nil_r | constructor]. Qed.

Lemma emits_gets (f : ConnectionManager → A) : emits P (gets f).
Proof. intros st. exists []. split; [by rewrite app_nil_r | constructor]. Qed.

Lemma emits_bind (m : M A) (f : A → M B) :
  emits P m → (∀ a, emits P (f a)) → emits P (m ≫= f).
Proof.
  intros Hm Hf st. unfold mbind, M_bind.
  destruct (Hm st) as (new & Htr & Hnew).
  destruct (m st) as [[a|msg] st']; simpl in *.
  - destruct (Hf a st') as (new' & Htr' & Hnew').
    exists (new ++ new')%list. split.
    + rewrite Htr', Htr. by rewrite app_assoc.
    + by apply Forall_app.
  - exists new. done.
Qed.

Lemma emits_defer (d : M unit) (m : M A) :
  emits P d → emits P m → emits P (defer d m).
Proof.
  intros Hd Hm st. unfold defer.
  destruct (Hm st) as (new & Htr & Hnew).
  destruct (m st) as [r st']. simpl in *.
  destruct (Hd st') as (new' & Htr' & Hnew').
  exists (new ++ new')%list. split.
  - rewrite Htr', Htr. by rewrite app_assoc.
  - by apply Forall_app.
Qed.
End Emits.

Lemma emits_emit (P : Event → Prop) e : P e → emits P (emit e).
Proof. intros He st. exists [e]. split; [done | by repeat constructor]. Qed.

Lemma emits_get_fs P : emits P get_fs.
Proof. intros st. exists []. split; [by rewrite app_nil_r | constructor]. Qed.

Lemma emits_modify_fs P f : emits P (modify_fs f).
Proof. intros st. exists []. split; [by rewrite app_nil_r | constructor]. Qed.

Lemma emits_modify_cm P f : emits P (modify_cm f).
Proof. intros st. exists []. split; [by rewrite app_nil_r | constructor]. Qed.

(** The added events are the [events] of the method. *)
Lemma emits_events {A} (P : Event → Prop) (m : M A) st :
  emits P m → trace (m st).2 = (trace st ++ events m st)%list
              ∧ Forall P (events m st).
Proof.
  intros Hm. destruct (Hm st) as (new & Htr & Hnew).
  unfold events. rewrite Htr, drop_trace. done.
Qed.

(** Splits a goal [emits P m] along the structure of [m]. *)
Ltac emits_step :=
  first
    [ apply emits_ret | apply emits_panic | apply emits_gets
    | apply emits_get_fs | apply emits_modify_fs | apply emits_modify_cm
    | apply emits_emit; exact I
    | apply emits_defer
    | apply emits_bind; [ | intros ? ]
    | progress case_match ].
Ltac emits_tac := repeat emits_step.

Lemma emits_tickBan P ip : emits P (tickBan ip).
Proof. unfold tickBan. emits_tac. Qed.

Section KeepsOn.
Context {X A B : Type} (proj : State → X).

Lemma keeps_on_bind (m : M A) (f : A → M B) :
  keeps_on proj m → (∀ a, keeps_on proj (f a)) → keeps_on proj (m ≫= f).
Proof.
  intros Hm Hf st. unfold mbind, M_bind.
  specialize (Hm st). destruct (m st) as [[a|msg] st']; simpl in *.
  - rewrite Hf. exact Hm.
  - exact Hm.
Qed.

Lemma keeps_on_defer (d : M unit) (m : M A) :
  keeps_on proj d → keeps_on proj m → keeps_on proj (defer d m).
Proof.
  intros Hd Hm st. unfold defer. specialize (Hm st).
  destruct (m st) as [r st']. simpl in *. rewrite Hd. exact Hm.
Qed.
End KeepsOn.

(** Splits a goal [keeps_on proj m] along the structure of [m]; a step
    that is a single state change is checked by computation. *)
Ltac keeps_on_step :=
  first
    [ apply keeps_on_defer
    | apply keeps_on_bind; [ | intros ? ]
    | progress case_match
    | solve [ intros ?; reflexivity ] ].
Ltac keeps_on_tac := repeat keeps_on_step.

Lemma keeps_on_tickBan : ∀ ip, keeps_on but_bans (tickBan ip).
Proof. intros ip st. reflexivity. Qed.

(** The events of a deferred [emit] come last. *)
Lemma defer_emit_last {A} (P : Event → Prop) e (body : M A) st :
  emits P body →
  ∃ new, events (defer (emit e) body) st = (new ++ [e])%list ∧ Forall P new.
Proof.
  intros Hb. destruct (Hb st) as (new & Htr & Hnew).
  exists new. split; [|done].
  unfold events, defer. destruct (body st) as [r st']. simpl in *.
  rewrite Htr, <- app_assoc. apply drop_trace.
Qed.

(** X6: on every path, also when it panics, the handler calls [wg.Done()]
    once and last; what it does before are effects on its connection, the
    capture channel and the driver only: no bind, no accept task, no file
    or object-store access. *)
Theorem handleConnection_wg_Done_once_and_last GetHash conn root st :
  ∃ body,
    events (handleConnection GetHash conn root) st = (body ++ [EvWgDone])%list
    ∧ Forall handler_event body.
Proof.
  unfold handleConnection. apply defer_emit_last.
  unfold Read, slice, index. emits_tac; apply emits_tickBan.
Qed.

(** X7: the handler changes the ban list and the trace and nothing else:
    the file system, the configuration, the registry, the known hashes and
    the rule table are as it found them. *)
Theorem handleConnection_changes_bans_only GetHash conn root st :
  but_bans (handleConnection GetHash conn root st).2 = but_bans st.
Proof.
  revert st. change (keeps_on but_bans (handleConnection GetHash conn root)).
  unfold handleConnection, Read, slice, index.
  keeps_on_tac; apply keeps_on_tickBan.
Qed.

(** ** The registry over a run *)

Lemma emits_handleConnection_no_accept GetHash conn root :
  emits no_accept (handleConnection GetHash conn root).
Proof.
  unfold handleConnection, Read, slice, index. emits_tac; apply emits_tickBan.
Qed.

Lemma emits_Store_no_accept s3 filename location data :
  emits no_accept (Store s3 filename location data).
Proof. unfold Store, ioutil_WriteFile. emits_tac. Qed.

Lemma emits_setupStore_no_accept : emits no_accept setupStore.
Proof. unfold setupStore, os_Getwd, os_Mkdir. emits_tac. Qed.

Lemma accept_tasks_app tr new :
  accept_tasks (tr ++ new) = (accept_tasks tr ++ accept_tasks new)%list.
Proof. apply omap_app. Qed.

Lemma accept_tasks_none new : Forall no_accept new → accept_tasks new = [].
Proof.
  induction 1 as [|e new He _ IH]; [done|].
  destruct e; try (exfalso; exact He); exact IH.
Qed.

(** A method that starts no accept task and keeps the shared part keeps
    the tasks and the registry. *)
Lemma quiet_step {A} (m : M A) st :
  emits no_accept m → keeps m →
  accept_tasks (trace (m st).2) = accept_tasks (trace st)
  ∧ tcpListeners (cm (m st).2) = tcpListeners (cm st).
Proof.
  intros He Hk. destruct (He st) as (new & -> & Hnew). split.
  - rewrite accept_tasks_app, (accept_tasks_none new Hnew). apply app_nil_r.
  - specialize (Hk st). unfold shared in Hk. congruence.
Qed.

(** What one call does to the tasks and to the registry. *)
Lemma CreateTCPListener_tasks net_Listen port st :
  let st' := (CreateTCPListener net_Listen port st).2 in
  (accept_tasks (trace st') = accept_tasks (trace st)
   ∧ tcpListeners (cm st') = tcpListeners (cm st))
  ∨ (∃ ln, tcpListeners (cm st) !! port = None
           ∧ accept_tasks (trace st') = (accept_tasks (trace st) ++ [ln])%list
           ∧ tcpListeners (cm st') = <[port := ln]> (tcpListeners (cm st))).
Proof.
  destruct (CreateTCPListener_outcome net_Listen port st) as [?|l ? Hl|err ? ? He|l ? ? Hl];
    simpl; auto.
  - left. split; [|done]. rewrite accept_tasks_app. simpl. apply app_nil_r.
  - right. exists l. split; [done|]. split; [|done].
    by rewrite accept_tasks_app.
Qed.

Lemma tcpManager_packet_tasks net_Listen pkt st :
  let st' := (tcpManager_packet net_Listen pkt st).2 in
  let port := DestPort pkt in
  (accept_tasks (trace st') = accept_tasks (trace st)
   ∧ tcpListeners (cm st') = tcpListeners (cm st))
  ∨ (∃ ln, tcpListeners (cm st) !! port = None
           ∧ accept_tasks (trace st') = (accept_tasks (trace st) ++ [ln])%list
           ∧ tcpListeners (cm st') = <[port := ln]> (tcpListeners (cm st))).
Proof.
  unfold tcpManager_packet. destruct (decide _); [|left; done].
  unfold mbind, M_bind. simpl.
  pose proof (CreateTCPListener_tasks net_Listen (DestPort pkt)
    (mkState (cm st) (fs st) (trace st ++ [EvCreateTCPListener (DestPort pkt)])))
    as Hc.
  simpl in Hc. rewrite accept_tasks_app in Hc. simpl in Hc.
  rewrite app_nil_r in Hc.
  destruct (CreateTCPListener _ _ _) as [[[known err]|msg] st1]; simpl in *;
    [|exact Hc].
  destruct err, known; simpl; rewrite ?accept_tasks_app; simpl;
    rewrite ?app_nil_r; exact Hc.
Qed.

Lemma step_tasks st st' :
  step st st' →
  (accept_tasks (trace st') = accept_tasks (trace st)
   ∧ tcpListeners (cm st') = tcpListeners (cm st))
  ∨ (∃ port ln, tcpListeners (cm st) !! port = None
           ∧ accept_tasks (trace st') = (accept_tasks (trace st) ++ [ln])%list
           ∧ tcpListeners (cm st') = <[port := ln]> (tcpListeners (cm st))).
Proof.
  destruct 1.
  - destruct (CreateTCPListener_tasks net_Listen port st) as [H|H]; eauto.
  - destruct (tcpManager_packet_tasks net_Listen pkt st) as [H|H]; eauto.
  - left. apply quiet_step;
      [apply emits_handleConnection_no_accept | apply keeps_handleConnection].
  - left. apply quiet_step; [apply emits_Store_no_accept | apply keeps_Store].
  - left. apply quiet_step; [apply emits_setupStore_no_accept | apply keeps_setupStore].
Qed.

(** X8: a port that has a listener keeps that listener for the rest of
    the run: no method removes or replaces an entry of the registry. *)
Theorem registry_only_grows st st' :
  rtc step st st' → tcpListeners (cm st) ⊆ tcpListeners (cm st').
Proof.
  induction 1 as [st|st st1 st' Hstep _ IH]; [done|].
  etrans; [|exact IH].
  destruct (step_tasks _ _ Hstep) as [[_ ->]|(port & ln & Hfree & _ & ->)];
    [done|].
  by apply insert_subseteq.
Qed.

(** X9: from a start with an empty registry and no accept task, at every
    moment of a run the accept tasks started are the listeners of the
    registry, each one once. *)
Theorem one_accept_task_per_listener st st' :
  tcpListeners (cm st) = ∅ →
  accept_tasks (trace st) = [] →
  rtc step st st' →
  accept_tasks (trace st') ≡ₚ (map_to_list (tcpListeners (cm st'))).*2.
Proof.
  intros Hreg Htasks Hrun.
  assert (accept_tasks (trace st) ≡ₚ (map_to_list (tcpListeners (cm st))).*2)
    as Hinv by (by rewrite Hreg, Htasks, map_to_list_empty).
  clear Hreg Htasks.
  induction Hrun as [st|st st1 st' Hstep _ IH]; [done|].
  apply IH. clear IH.
  destruct (step_tasks _ _ Hstep) as [[-> ->]|(port & ln & Hfree & -> & ->)];
    [done|].
  rewrite map_to_list_insert by done. rewrite fmap_cons. simpl.
  rewrite <- Hinv. symmetry. apply Permutation_cons_append.
Qed.

(** ** The observer over its packets *)

(** One turn, as a function of what [CreateTCPListener] finds. *)
Lemma tcpManager_packet_run net_Listen pkt st :
  let port := DestPort pkt in
  let st' := (tcpManager_packet net_Listen pkt st).2 in
  (tcpManager_packet net_Listen pkt st).1 = Ret tt
  ∧ config (cm st') = config (cm st)
  ∧ addresses (cm st') = addresses (cm st)
  ∧ ((tcpListeners (cm st') = tcpListeners (cm st)
      ∧ ¬ (flag_set SYN pkt ∧ port ≤ MaxPort (config (cm st))
           ∧ tcpListeners (cm st) !! port = None
           ∧ grants net_Listen (listen_addr (cm st) port)))
     ∨ (∃ ln, flag_set SYN pkt ∧ port ≤ MaxPort (config (cm st))
              ∧ tcpListeners (cm st) !! port = None
              ∧ net_Listen (listen_addr (cm st) port) = inr ln
              ∧ tcpListeners (cm st') = <[port := ln]> (tcpListeners (cm st)))).
Proof.
  unfold tcpManager_packet, flag_set, grants, listen_addr.
  destruct (decide (Z.land (Flags pkt) SYN ≠ 0)) as [Hsyn|Hno]; simpl.
  - unfold mbind, M_bind. simpl.
    destruct (CreateTCPListener_outcome net_Listen (DestPort pkt)
      (mkState (cm st) (fs st) (trace st ++ [EvCreateTCPListener (DestPort pkt)])))
      as [Hgt|l Hle Hl|err Hle Hfree He|l Hle Hfree Hl]; simpl in *.
    + repeat split; try done. left. split; [done|]. intros (_ & ? & _). lia.
    + repeat split; try done. left. split; [done|]. intros (_ & _ & ? & _).
      congruence.
    + repeat split; try done. left. split; [done|].
      intros (_ & _ & _ & ln & ?). congruence.
    + repeat split; try done. right. exists l. done.
  - repeat split; try done. left. split; [done|]. tauto.
Qed.

Lemma bindAddress_config s s' :
  config s' = config s → addresses s' = addresses s →
  bindAddress s' = bindAddress s.
Proof. unfold bindAddress. by intros -> ->. Qed.

(** X10: after the observer has taken a run of packets, a port has a
    listener exactly when it had one before, or some packet of the run had
    its SYN flag set and that port as destination, the port is at or below
    [MaxPort] and the operating system grants the bind. *)
Theorem tcpManager_packets_registry net_Listen pkts st p :
  is_Some (tcpListeners (cm (tcpManager_packets net_Listen pkts st).2) !! p)
  ↔ is_Some (tcpListeners (cm st) !! p)
    ∨ (p ≤ MaxPort (config (cm st))
       ∧ grants net_Listen (listen_addr (cm st) p)
       ∧ ∃ pkt, pkt ∈ pkts ∧ flag_set SYN pkt ∧ DestPort pkt = p).
Proof.
  revert st. induction pkts as [|pkt rest IH]; intros st.
  - simpl. split; [by left|]. intros [H|(_ & _ & pkt & Hin & _)]; [done|].
    by apply elem_of_nil in Hin.
  - simpl. unfold mbind, M_bind.
    destruct (tcpManager_packet_run net_Listen pkt st)
      as (Hret & Hcfg & Haddr & Hreg).
    destruct (tcpManager_packet net_Listen pkt st) as [r st1]. simpl in *.
    subst r. rewrite IH. unfold listen_addr in *.
    rewrite (bindAddress_config _ _ Hcfg Haddr), Hcfg.
    destruct Hreg as [[-> Hnot]|(ln & Hsyn & Hle & Hfree & Hok & ->)].
    + split.
      * intros [H|(Hle & Hg & pk & Hin & Hsyn & Hp)]; [by left|].
        right. repeat split; try done. exists pk. split; [|done].
        by apply list_elem_of_further.
      * intros [H|(Hle & Hg & pk & Hin & Hsyn & Hp)]; [by left|].
        apply elem_of_cons in Hin as [->|Hin].
        -- destruct (tcpListeners (cm st) !! p) as [l|] eqn:Hl; [left; eauto|].
           exfalso. apply Hnot. subst p. done.
        -- right. repeat split; try done. by exists pk.
    + rewrite lookup_insert_is_Some. split.
      * intros [[Heq|[_ H]]|(Hle' & Hg & pk & Hin & Hsyn' & Hp)].
        -- right. subst p. split; [done|]. split; [by exists ln|].
           exists pkt. split; [apply list_elem_of_here | done].
        -- by left.
        -- right. repeat split; try done. exists pk. split; [|done].
           by apply list_elem_of_further.
      * intros [H|(Hle' & Hg & pk & Hin & Hsyn' & Hp)].
        -- left. destruct (decide (DestPort pkt = p)); [by left | by right].
        -- apply elem_of_cons in Hin as [->|Hin].
           ++ left. by left.
           ++ right. repeat split; try done. by exists pk.
Qed.

(** X11: for a packet with the SYN flag the observer logs "started tcp
    server" exactly when [CreateTCPListener] answers that the port was not
    known: when it has bound the port, and also when the port is above
    [MaxPort] and nothing was started.  A refused bind is not logged so. *)
Theorem tcpManager_logs_started net_Listen pkt st :
  EvLog "trace" ("started tcp server: " +:+ pretty (DestPort pkt))
    ∈ events (tcpManager_packet net_Listen pkt) st
  ↔ flag_set SYN pkt
    ∧ (MaxPort (config (cm st)) < DestPort pkt
       ∨ (tcpListeners (cm st) !! DestPort pkt = None
          ∧ grants net_Listen (listen_addr (cm st) (DestPort pkt)))).
Proof.
  unfold events, tcpManager_packet, flag_set, grants, listen_addr.
  destruct (decide (Z.land (Flags pkt) SYN ≠ 0)) as [Hsyn|Hno].
  - unfold mbind, M_bind. simpl.
    destruct (CreateTCPListener_outcome net_Listen (DestPort pkt)
      (mkState (cm st) (fs st) (trace st ++ [EvCreateTCPListener (DestPort pkt)])))
      as [Hgt|l Hle Hl|err Hle Hfree He|l Hle Hfree Hl];
      trace_norm; simpl in *; rewrite ?elem_of_cons, elem_of_nil.
    + split; [intros _; split; [done | by left]|].
      intros _. right. right. by left.
    + split.
      * intros [H|H]; [discriminate | done].
      * intros (_ & [?|[? _]]); [lia | congruence].
    + split.
      * intros [H|[H|[H|H]]]; try discriminate; done.
      * intros (_ & [?|[_ [ln ?]]]); [lia | congruence].
    + split.
      * intros _. split; [done|]. right. split; [done | by exists l].
      * intros _. right. right. right. by left.
  - simpl. rewrite drop_all, elem_of_nil. tauto.
Qed.

(** ** The bind address *)

Lemma foldl_public_snoc (addrs : list IP) (a : IP) (init : string) :
  foldl (fun address addr =>
           if negb (ip_private addr) && ip_is4 addr then ip_String addr
           else address) init (addrs ++ [a])
  = if negb (ip_private a) && ip_is4 a then ip_String a
    else foldl (fun address addr =>
                  if negb (ip_private addr) && ip_is4 addr then ip_String addr
                  else address) init addrs.
Proof. by rewrite foldl_app. Qed.

(** X12: with [BindAddress] "public" the listener is bound on the last
    address of [s.addresses] that is IPv4 and not private (the loop has no
    break), and on 0.0.0.0 when there is none. *)
Theorem bindAddress_public s :
  BindAddress (config s) = "public" →
  bindAddress s
  = default "0.0.0.0"
      (ip_String <$> last (filter public4 (addresses s))).
Proof.
  intros Hpub. unfold bindAddress. rewrite Hpub.
  destruct (decide _) as [|_]; [discriminate|].
  destruct (decide _) as [_|]; [|done].
  induction (addresses s) as [|a addrs IH] using rev_ind; [done|].
  rewrite foldl_public_snoc, filter_app, IH.
  rewrite filter_cons, filter_nil.
  destruct (decide (public4 a)) as [[Hp H4]|Hn].
  - rewrite Hp, H4. simpl. by rewrite last_snoc.
  - rewrite app_nil_r.
    destruct (ip_private a) eqn:Hp, (ip_is4 a) eqn:H4; simpl; try done.
    exfalso. apply Hn. by split.
Qed.

(** ** The paths of the handler *)

Lemma plain_events_split GetHash s conn root :
  plain_events GetHash s conn root
  = (sniff_events conn root
     ++ (if first_is x16 (sniffed conn)
         then [EvDoneSniffing; EvUnwrapTLS false] else [])
     ++ route_events GetHash s root Raw (sniffed conn) (sniffed_n conn)
     ++ [EvWgDone])%list.
Proof.
  unfold plain_events, sniff_events, route_events.
  rewrite take_sniffed. by repeat (rewrite <- app_assoc; simpl).
Qed.

(** Opens the handler up to the first read, for a TCP address. *)
Ltac open_handler Haddr Hban :=
  unfold handleConnection, handled, Read, defer, mbind, M_bind;
  rewrite Haddr; rewrite tickBan_eq in *; simpl in Hban;
  injection Hban as Hban; rewrite Hban; cbn [fst snd];
  change (length (make 1500)) with 1500%nat.

(** A banned address: the socket is closed and nothing else is done. *)
Lemma handleConnection_banned_run GetHash conn root st ip port :
  RemoteAddr conn = TCPAddr ip port →
  (tickBan ip st).1 = Ret true →
  handleConnection GetHash conn root st
  = (Ret tt, handled ip st [EvConnClose; EvWgDone]).
Proof.
  intros Haddr Hban. open_handler Haddr Hban.
  simpl. by rewrite <- app_assoc.
Qed.

(** An address that is not a TCP address: the ban list is not touched and
    the conversion of line 117 panics. *)
Lemma handleConnection_other_run GetHash conn root st name :
  RemoteAddr conn = OtherAddr name →
  handleConnection GetHash conn root st
  = (Panic "interface conversion: not *net.TCPAddr",
     mkState (cm st) (fs st)
       (trace st ++ [EvNewMuxConn; EvStartSniffing; EvWgDone])).
Proof.
  intros Haddr. unfold handleConnection, defer, mbind, M_bind. rewrite Haddr.
  simpl. by repeat rewrite <- app_assoc.
Qed.

(** Not banned, and not unwrapped: the first byte is not 0x16 or
    [unwrapTLS] fails. *)
Lemma handleConnection_not_unwrapped_run GetHash conn root st ip port :
  RemoteAddr conn = TCPAddr ip port →
  (tickBan ip st).1 = Ret false →
  (first_is x16 (sniffed conn) = true → ∃ e, tls_result conn = inl e) →
  handleConnection GetHash conn root st
  = (Ret tt, handled ip st (plain_events GetHash (cm st) conn root)).
Proof.
  intros Haddr Hban Htls. unfold plain_events.
  open_handler Haddr Hban.
  fold (sniffed conn). fold (sniffed_n conn).
  pose proof (length_sniffed conn) as Hlen.
  pose proof (sniffed_n_le conn) as Hn.
  pose proof (take_sniffed conn) as Htake.
  generalize dependent (sniffed_n conn). generalize dependent (sniffed conn).
  generalize (take 1500 (read_data conn)).
  intros B [|b0 buf] Htls Hlen n Hn Htake; [discriminate|].
  unfold index, slice, slice_to. cbn [first_is] in *.
  destruct (read_err conn) as [[|m]|]; simpl;
    (destruct (Byte.eqb b0 x16);
     [destruct (Htls eq_refl) as [e ->] | clear Htls]); simpl;
    (destruct (decide (n ≤ _)%nat) as [_|?]; [|simpl in Hn; lia]);
    rewrite ?Htake; simpl;
    destruct (decide (0 < n)%nat); simpl;
    try (destruct (decide (GetHash B ∈ knownHashes (cm st))); simpl);
    try (destruct (decide (n ≤ _)%nat) as [_|?]; [|simpl in Hn; lia]);
    rewrite ?Htake; simpl;
    destruct (Match (tcpRules (cm st)) (b0 :: buf)); simpl;
    try (destruct (decide (0 < n)%nat); [|lia]); simpl;
    repeat rewrite <- app_assoc; simpl;
    repeat (destruct (decide _); try tauto); try reflexivity.
Qed.

(** Not banned, the first byte is 0x16 and [unwrapTLS] succeeds with a
    count within its buffer. *)
Lemma handleConnection_unwrapped_run GetHash conn root st ip port newBuf newN :
  RemoteAddr conn = TCPAddr ip port →
  (tickBan ip st).1 = Ret false →
  first_is x16 (sniffed conn) = true →
  tls_result conn = inr (newBuf, newN) →
  (newN ≤ length newBuf)%nat →
  handleConnection GetHash conn root st
  = (Ret tt,
     handled ip st (unwrapped_events GetHash (cm st) conn root newBuf newN)).
Proof.
  intros Haddr Hban Hfirst Htls HnewN.
  unfold unwrapped_events, sniff_events, route_events.
  open_handler Haddr Hban.
  fold (sniffed conn). fold (sniffed_n conn).
  pose proof (length_sniffed conn) as Hlen.
  generalize dependent (sniffed_n conn). generalize dependent (sniffed conn).
  intros [|b0 buf] Hfirst Hlen n; [discriminate|].
  unfold index, slice, slice_to. cbn [first_is] in Hfirst. rewrite Htls.
  destruct (read_err conn) as [[|m]|]; simpl; rewrite Hfirst; simpl;
    (destruct (decide (newN ≤ _)%nat) as [_|?]; [|lia]); simpl;
    destruct (decide (0 < newN)%nat); simpl;
    try (destruct (decide (GetHash (take newN newBuf) ∈ knownHashes (cm st)));
         simpl);
    try (destruct (decide (newN ≤ _)%nat) as [_|?]; [|lia]); simpl;
    destruct (Match (tcpRules (cm st)) newBuf); simpl;
    try (destruct (decide (0 < newN)%nat); [|lia]); simpl;
    repeat rewrite <- app_assoc; simpl;
    repeat (destruct (decide _); try tauto); try reflexivity.
Qed.

(** Not banned, unwrapped, and the count [unwrapTLS] answers exceeds its
    buffer: [buf[:n]] panics after the reset of the sniffer. *)
Lemma handleConnection_unwrap_overflow_run GetHash conn root st ip port
    newBuf newN :
  RemoteAddr conn = TCPAddr ip port →
  (tickBan ip st).1 = Ret false →
  first_is x16 (sniffed conn) = true →
  tls_result conn = inr (newBuf, newN) →
  (length newBuf < newN)%nat →
  handleConnection GetHash conn root st
  = (Panic "slice bounds out of range",
     handled ip st
       (sniff_events conn root
        ++ [EvDoneSniffing; EvUnwrapTLS true; EvReset Cleartext; EvWgDone])).
Proof.
  intros Haddr Hban Hfirst Htls HnewN.
  unfold sniff_events.
  open_handler Haddr Hban.
  fold (sniffed conn). fold (sniffed_n conn).
  pose proof (length_sniffed conn) as Hlen.
  generalize dependent (sniffed_n conn). generalize dependent (sniffed conn).
  intros [|b0 buf] Hfirst Hlen n; [discriminate|].
  unfold index, slice, slice_to. cbn [first_is] in Hfirst. rewrite Htls.
  destruct (read_err conn) as [[|m]|]; simpl; rewrite Hfirst; simpl;
    (destruct (decide (newN ≤ _)%nat) as [?|_]; [lia|]); simpl;
    repeat rewrite <- app_assoc; reflexivity.
Qed.

(** The events of a run that ends in the state [handled ip st new]. *)
Lemma events_handled {A} (m : M A) st r ip new :
  m st = (r, handled ip st new) → events m st = new.
Proof. intros Heq. unfold events. rewrite Heq. simpl. apply drop_trace. Qed.

(** ** What the handler does with the bytes *)

Lemma elem_of_sends f tr : EvStoreSend f ∈ tr ↔ f ∈ sends tr.
Proof.
  unfold sends. rewrite list_elem_of_omap. split.
  - intros Hin. by exists (EvStoreSend f).
  - intros (e & Hin & He). destruct e; try discriminate. by injection He as ->.
Qed.



Lemma sniff_events_quiet conn root :
  sends (sniff_events conn root) = []
  ∧ tags (sniff_events conn root) = []
  ∧ deliveries (sniff_events conn root) = [].
Proof. unfold sniff_events. by destruct (read_err conn) as [[|?]|]. Qed.

Lemma route_events_sends GetHash s root muc buf n :
  sends (route_events GetHash s root muc buf n)
  = if decide ((0 < n)%nat ∧ GetHash (take n buf) ∉ knownHashes s)
    then [mkFile (GetHash (take n buf)) "raw" (take n buf)] else [].
Proof.
  unfold route_events, sends.
  destruct (decide _), (Match _ _); try done; by destruct (decide _).
Qed.



Lemma plain_events_sends GetHash s conn root :
  sends (plain_events GetHash s conn root)
  = sends (route_events GetHash s root Raw (sniffed conn) (sniffed_n conn)).
Proof.
  rewrite plain_events_split. unfold sends at 1. rewrite !omap_app.
  fold (sends (sniff_events conn root)).
  rewrite (proj1 (sniff_events_quiet conn root)).
  generalize (sniffed conn) (sniffed_n conn). intros buf n.
  destruct (first_is _ _); simpl; apply app_nil_r.
Qed.

Lemma unwrapped_events_sends GetHash s conn root newBuf newN :
  sends (unwrapped_events GetHash s conn root newBuf newN)
  = sends (route_events GetHash s root Cleartext newBuf newN).
Proof.
  unfold unwrapped_events, sends at 1. rewrite !omap_app.
  fold (sends (sniff_events conn root)).
  rewrite (proj1 (sniff_events_quiet conn root)). simpl. apply app_nil_r.
Qed.




Lemma handleConnection_path GetHash conn root st :
  handler_path GetHash conn root st
    (handleConnection GetHash conn root st).1
    (events (handleConnection GetHash conn root) st).
Proof.
  destruct (RemoteAddr conn) as [ip port|name] eqn:Haddr.
  - destruct (bool_decide (BanThreshold (config (cm st))
                           < default 0 (banList (cm st) !! ip) + 1)) eqn:Hb.
    + assert ((tickBan ip st).1 = Ret true) as Hban
        by (rewrite tickBan_eq; simpl; by rewrite Hb).
      pose proof (handleConnection_banned_run GetHash _ root _ _ _ Haddr Hban)
        as Hrun.
      rewrite (events_handled _ _ _ _ _ Hrun), Hrun. constructor.
    + assert ((tickBan ip st).1 = Ret false) as Hban
        by (rewrite tickBan_eq; simpl; by rewrite Hb).
      destruct (first_is x16 (sniffed conn)) eqn:Hfirst;
        [destruct (tls_result conn) as [e|[newBuf newN]] eqn:Htls;
         [|destruct (decide (newN ≤ length newBuf)%nat) as [Hle|Hgt]]|].
      * assert (first_is x16 (sniffed conn) = true → ∃ e, tls_result conn = inl e)
          as Hno by eauto.
        pose proof (handleConnection_not_unwrapped_run GetHash _ root _ _ _
                      Haddr Hban Hno) as Hrun.
        rewrite (events_handled _ _ _ _ _ Hrun), Hrun. constructor.
      * pose proof (handleConnection_unwrapped_run GetHash _ root _ _ _ _ _
                      Haddr Hban Hfirst Htls Hle) as Hrun.
        rewrite (events_handled _ _ _ _ _ Hrun), Hrun. by constructor.
      * pose proof (handleConnection_unwrap_overflow_run GetHash _ root _ _ _ _ _
                      Haddr Hban Hfirst Htls ltac:(lia)) as Hrun.
        rewrite (events_handled _ _ _ _ _ Hrun), Hrun. constructor.
      * assert (first_is x16 (sniffed conn) = true → ∃ e, tls_result conn = inl e)
          as Hno by (rewrite Hfirst; discriminate).
        pose proof (handleConnection_not_unwrapped_run GetHash _ root _ _ _
                      Haddr Hban Hno) as Hrun.
        rewrite (events_handled _ _ _ _ _ Hrun), Hrun. constructor.
  - pose proof (handleConnection_other_run GetHash _ root st _ Haddr) as Hrun.
    unfold events. rewrite Hrun. simpl. rewrite drop_trace. constructor.
Qed.

(** X14: a connection that is not unwrapped is sent for the bucket "raw"
    exactly when its first read is not empty and the hash of the bytes read
    is not in the set of known hashes; the record is named by that hash and
    carries exactly the bytes read. *)
Theorem handleConnection_raw_record GetHash conn root st ip port f :
  RemoteAddr conn = TCPAddr ip port →
  (tickBan ip st).1 = Ret false →
  (first_is x16 (sniffed conn) = true → ∃ e, tls_result conn = inl e) →
  let B := take 1500 (read_data conn) in
  EvStoreSend f ∈ events (handleConnection GetHash conn root) st
  ↔ f = mkFile (GetHash B) "raw" B
    ∧ B ≠ [] ∧ GetHash B ∉ knownHashes (cm st).
Proof.
  intros Haddr Hban Hno B.
  rewrite (events_handled _ _ _ _ _
             (handleConnection_not_unwrapped_run GetHash _ root _ _ _
                Haddr Hban Hno)).
  rewrite elem_of_sends, plain_events_sends, route_events_sends.
  rewrite take_sniffed. fold B.
  assert ((0 < sniffed_n conn)%nat ↔ B ≠ []) as Hn.
  { unfold sniffed_n. fold B. destruct B; simpl; split; try done; lia. }
  destruct (decide _); set_solver.
Qed.

(** X15: whatever the connection and the state, every record the handler
    sends on the capture channel is for the bucket "raw", is not empty, is
    named by the hash of its own bytes, and that hash was not a known one;
    and the handler sends at most one. *)
Theorem handleConnection_records_named_by_hash GetHash conn root st :
  let ev := events (handleConnection GetHash conn root) st in
  (∀ f, EvStoreSend f ∈ ev →
        Location f = "raw" ∧ Data f ≠ [] ∧ Filename f = GetHash (Data f)
        ∧ Filename f ∉ knownHashes (cm st))
  ∧ (length (raw_sends ev) ≤ 1)%nat.
Proof.
  intros ev. subst ev.
  assert (∀ tr, (length (raw_sends tr) ≤ length (sends tr))%nat) as Hraw.
  { induction tr as [|e tr IH]; [done|].
    destruct e; try exact IH. unfold raw_sends, sends in *. simpl.
    destruct (decide _); simpl.
    - apply le_n_S. exact IH.
    - etrans; [exact IH | apply Nat.le_succ_diag_r]. }
  assert (∀ s root muc buf n f,
            (n ≤ length buf)%nat →
            f ∈ sends (route_events GetHash s root muc buf n) →
            Location f = "raw" ∧ Data f ≠ [] ∧ Filename f = GetHash (Data f)
            ∧ Filename f ∉ knownHashes s) as Hroute.
  { intros s r muc buf n f Hle. rewrite route_events_sends.
    destruct (decide _) as [[Hn Hnew]|]; [|set_solver].
    intros ->%list_elem_of_singleton. simpl. repeat split; try done.
    destruct buf, n; simpl in *; try done; lia. }
  assert (∀ s root muc buf n,
            (length (sends (route_events GetHash s root muc buf n)) ≤ 1)%nat)
    as Hone.
  { intros. rewrite route_events_sends. destruct (decide _); simpl; lia. }
  destruct (handleConnection_path GetHash conn root st)
    as [| | |newBuf newN Hle|].
  - split; [intros f; set_solver | simpl; lia].
  - split; [intros f; set_solver | simpl; lia].
  - split.
    + intros f. rewrite elem_of_sends, plain_events_sends.
      apply Hroute, sniffed_n_le.
    + etrans; [apply Hraw|]. rewrite plain_events_sends. apply Hone.
  - split.
    + intros f. rewrite elem_of_sends, unwrapped_events_sends.
      by apply Hroute.
    + etrans; [apply Hraw|]. rewrite unwrapped_events_sends. apply Hone.
  - assert (sends (sniff_events conn root
                   ++ [EvDoneSniffing; EvUnwrapTLS true; EvReset Cleartext;
                       EvWgDone]) = []) as Hnone.
    { unfold sends. rewrite omap_app. fold (sends (sniff_events conn root)).
      by rewrite (proj1 (sniff_events_quiet conn root)). }
    split.
    + intros f. rewrite elem_of_sends, Hnone. set_solver.
    + etrans; [apply Hraw|]. rewrite Hnone. simpl. lia.
Qed.


(** X17: on every path, also one that panics later, a banner task and a
    timeout task that the handler has started are cancelled by it; a
    banned connection starts neither. *)
Theorem handleConnection_cancels_its_tasks GetHash conn root st :
  let ev := events (handleConnection GetHash conn root) st in
  (∀ p, EvSpawnBanner p ∈ ev → EvBannerCancel ∈ ev)
  ∧ (EvSpawnTimeout ∈ ev → EvTimeoutCancel ∈ ev).
Proof.
  intros ev. subst ev.
  assert (EvBannerCancel ∈ sniff_events conn root
          ∧ EvTimeoutCancel ∈ sniff_events conn root) as [Hb Ht].
  { unfold sniff_events. destruct (read_err conn) as [[|?]|]; set_solver. }
  destruct (handleConnection_path GetHash conn root st)
    as [| | |newBuf newN Hle|].
  - split; [intros p|]; set_solver.
  - split; [intros p|]; set_solver.
  - rewrite plain_events_split. split; [intros p|]; intros _;
      apply elem_of_app; by left.
  - unfold unwrapped_events. split; [intros p|]; intros _;
      apply elem_of_app; by left.
  - split; [intros p|]; intros _; apply elem_of_app; by left.
Qed.

(** ** store.go: setting up and storing *)

Lemma os_Mkdir_run path st :
  os_Mkdir path st
  = match mkdir_result (fs st) path with
    | inl e => (Ret (Some e),
                mkState (cm st) (fs st) (trace st ++ [EvMkdir path (Some e)]))
    | inr p => (Ret None,
                mkState (cm st) (add_dir p (fs st))
                        (trace st ++ [EvMkdir path None]))
    end.
Proof.
  unfold os_Mkdir, mbind, M_bind, get_fs. simpl.
  by destruct (mkdir_result (fs st) path).
Qed.

Lemma ioutil_WriteFile_run path data st :
  ioutil_WriteFile path data st
  = match write_result (fs st) path with
    | inl e => (Ret (Some e),
                mkState (cm st) (fs st)
                        (trace st ++ [EvWriteFile path data (Some e)]))
    | inr p => (Ret None,
                mkState (cm st) (put_file p data (fs st))
                        (trace st ++ [EvWriteFile path data None]))
    end.
Proof.
  unfold ioutil_WriteFile, mbind, M_bind, get_fs. simpl.
  by destruct (write_result (fs st) path).
Qed.

(** What a successful [setupStore] has done: nothing to the file system
    when the folder is empty, and otherwise the two [Mkdir], both granted. *)
Lemma setupStore_ok st :
  (setupStore st).1 = Ret None →
  let st1 := (setupStore st).2 in
  let F := OutputFolder (config (cm st1)) in
  (F = EmptyString ∧ fs st1 = fs st)
  ∨ (F ≠ EmptyString
     ∧ ∃ p q, mkdir_result (fs st) (F +:+ "raw") = inr p
              ∧ mkdir_result (add_dir p (fs st)) (F +:+ "sessions") = inr q
              ∧ fs st1 = add_dir q (add_dir p (fs st))).
Proof.
  unfold setupStore, os_Getwd, mbind, M_bind, gets, get_fs. simpl.
  destruct (decide (OutputFolder (config (cm st)) = ".")) as [Hdot|Hnd]; simpl;
    [destruct (cwd (fs st)) as [c|]; simpl; [|discriminate]|];
    (destruct (decide _) as [Hne|He]; simpl;
     [ rewrite os_Mkdir_run; simpl;
       destruct (mkdir_result (fs st) _) as [e1|p] eqn:Hp; simpl;
       [discriminate|];
       rewrite os_Mkdir_run; simpl;
       destruct (mkdir_result (add_dir p (fs st)) _) as [e2|q] eqn:Hq; simpl;
       [discriminate|];
       intros _; destruct (decide _); simpl;
       right; (split; [done|]); exists p, q; done
     | intros _; destruct (decide _); simpl; left;
       (split; [by apply dec_stable | done]) ]).
Qed.

Lemma mkdir_result_inr f path p :
  mkdir_result f path = inr p →
  fault f = None ∧ resolve f path = Some p
  ∧ is_dir f p = false ∧ is_file f p = false
  ∧ is_dir f (parent p) = true.
Proof.
  unfold mkdir_result.
  destruct (fault f); [discriminate|].
  destruct (resolve f path) as [p'|]; [|discriminate].
  destruct (is_dir f p') eqn:Hd; [discriminate|].
  destruct (is_file f p') eqn:Hf; [discriminate|]. simpl.
  destruct (is_dir f (parent p')) eqn:Hpar; [|discriminate].
  by intros [= <-].
Qed.

Lemma is_dir_add_dir p f q :
  is_dir (add_dir p f) q = bool_decide (q = p) || is_dir f q.
Proof.
  unfold is_dir, add_dir. simpl.
  apply eq_true_iff_eq. rewrite orb_true_iff, !bool_decide_eq_true.
  set_solver.
Qed.

(** X18: [setupStore] makes its two directories with [os.Mkdir] and gives
    up on any error, so it returns nil for a folder that is not empty only
    when neither [OutputFolder+"raw"] nor [OutputFolder+"sessions"] was
    there before; both are directories afterwards, and no other directory
    has appeared. *)
Theorem setupStore_success_is_fresh st :
  (setupStore st).1 = Ret None →
  OutputFolder (config (cm (setupStore st).2)) ≠ EmptyString →
  let st1 := (setupStore st).2 in
  let F := OutputFolder (config (cm st1)) in
  ∃ p q,
    resolve (fs st) (F +:+ "raw") = Some p
    ∧ resolve (fs st) (F +:+ "sessions") = Some q
    ∧ is_dir (fs st) p = false ∧ is_dir (fs st) q = false
    ∧ is_dir (fs st1) p = true ∧ is_dir (fs st1) q = true
    ∧ dirs (fs st1) = {[q]} ∪ ({[p]} ∪ dirs (fs st)).
Proof.
  intros Hret Hne st1 F.
  destruct (setupStore_ok st Hret) as [[He _]|(_ & p & q & Hp & Hq & Hfs)];
    [done|].
  fold st1 F in Hp, Hq, Hfs.
  apply mkdir_result_inr in Hp as (_ & Hrp & Hdp & _ & _).
  apply mkdir_result_inr in Hq as (_ & Hrq & Hdq & _ & _).
  rewrite is_dir_add_dir in Hdq. apply orb_false_iff in Hdq as [_ Hdq].
  exists p, q. rewrite Hfs, !is_dir_add_dir.
  repeat split; try done.
  - apply orb_true_iff. right. apply orb_true_iff. left.
    by apply bool_decide_eq_true_2.
  - apply orb_true_iff. left. by apply bool_decide_eq_true_2.
Qed.

(** X19: [setupStore] makes the uploader exactly when it returns nil and
    [S3Key] is not empty; after an error of the local set-up, and with an
    empty key, the uploader is as it was. *)
Theorem setupStore_uploader st :
  (EvNewUploader ∈ events setupStore st
   ↔ (setupStore st).1 = Ret None ∧ S3Key (config (cm st)) ≠ EmptyString)
  ∧ (uploader (cm (setupStore st).2) = true
     ↔ uploader (cm st) = true ∨ EvNewUploader ∈ events setupStore st).
Proof.
  unfold events, setupStore, os_Getwd, mbind, M_bind, gets, get_fs. simpl.
  destruct (decide (OutputFolder (config (cm st)) = ".")) as [Hdot|Hnd]; simpl;
    [destruct (cwd (fs st)) as [c|]; simpl|];
    try (destruct (decide _) as [Hne|He]; simpl;
         [ rewrite os_Mkdir_run; simpl;
           destruct (mkdir_result (fs st) _) as [e1|p]; simpl;
           [|rewrite os_Mkdir_run; simpl;
             destruct (mkdir_result (add_dir p (fs st)) _) as [e2|q]; simpl]
         | ]);
    try (destruct (decide (S3Key _ ≠ EmptyString)) as [Hk|Hk]; simpl);
    repeat rewrite <- app_assoc; simpl; rewrite ?drop_trace, ?drop_all;
    (split; [set_solver|]); destruct (uploader (cm st)); set_solver.
Qed.

(** ** Paths *)










Lemma Store_state s3 filename location data st :
  let st' := (Store s3 filename location data st).2 in
  cm st' = cm st
  ∧ fs st' = if decide (OutputFolder (config (cm st)) ≠ EmptyString) then
               match write_result (fs st) (local_path (cm st) filename location)
               with
               | inr p => put_file p (Sanitize (cm st) data) (fs st)
               | inl _ => fs st
               end
             else fs st.
Proof.
  unfold Store, local_path, mbind, M_bind, gets. simpl.
  destruct (decide _) as [Hout|Hout]; simpl.
  - rewrite ioutil_WriteFile_run.
    destruct (write_result _ _) as [e|p]; simpl;
      destruct (uploader (cm st)); simpl; try destruct s3; done.
  - destruct (uploader (cm st)); simpl; try destruct s3; done.
Qed.


(** X20: when the local write of [Store] is granted, the file at the path
    [OutputFolder/location/filename] holds the sanitized bytes afterwards;
    no other file, no directory and nothing of the manager has changed. *)
Theorem Store_writes_sanitized_file s3 filename location data st p :
  OutputFolder (config (cm st)) ≠ EmptyString →
  write_result (fs st) (local_path (cm st) filename location) = inr p →
  let st' := (Store s3 filename location data st).2 in
  resolve (fs st) (local_path (cm st) filename location) = Some p
  ∧ files (fs st') !! p = Some (Sanitize (cm st) data)
  ∧ (∀ q, q ≠ p → files (fs st') !! q = files (fs st) !! q)
  ∧ dirs (fs st') = dirs (fs st)
  ∧ cm st' = cm st.
Proof.
  intros Hout Hw st'.
  destruct (Store_state s3 filename location data st) as [Hcm Hfs].
  fold st' in Hcm, Hfs. rewrite Hw in Hfs.
  destruct (decide _); [|done]. rewrite Hfs, Hcm. simpl.
  repeat split; try done.
  - unfold write_result in Hw. destruct (fault _); [done|].
    destruct (resolve _ _) as [p'|]; [|done].
    destruct (is_dir _ p'); [done|]. destruct (is_dir _ _); [|done].
    by injection Hw as ->.
  - apply lookup_insert_eq.
  - intros q Hq. by apply lookup_insert_ne.
Qed.



(** ** A refused bind, and instances of the statements above *)



(** The listener of port 4444 is still there after the SYN for port 22. *)
Lemma registry_only_grows_witness :
  tcpListeners (cm one_listener) ⊆ tcpListeners (cm two_listeners).
Proof.
  apply (registry_only_grows one_listener two_listeners).
  apply rtc_once. apply step_tcpManager.
Defined.

(** Two listeners, two accept tasks. *)
Lemma one_accept_task_per_listener_witness :
  accept_tasks (trace two_listeners)
  ≡ₚ (map_to_list (tcpListeners (cm two_listeners))).*2.
Proof.
  apply (one_accept_task_per_listener demo_state two_listeners).
  - reflexivity.
  - reflexivity.
  - apply (rtc_l _ _ one_listener); [apply step_tcpManager|].
    apply rtc_once. apply step_tcpManager.
Defined.

(** The host of the fixture has two public IPv4 addresses. *)
Lemma bindAddress_public_witness :
  bindAddress public_manager
  = default "0.0.0.0"
      (ip_String <$> last (filter public4 (addresses public_manager))).
Proof. apply (bindAddress_public public_manager). reflexivity. Defined.

(** The last public IPv4 address of the fixture is the one bound. *)
Example bindAddress_public_example : bindAddress public_manager = "203.0.113.9".
Proof. reflexivity. Qed.


(** The request of an HTTP client on a fresh manager. *)
Lemma handleConnection_raw_record_witness :
  let B := take 1500 (read_data (knock "1.2.3.4" http_GET)) in
  EvStoreSend (mkFile (demo_GetHash B) "raw" B)
    ∈ events (handleConnection demo_GetHash (knock "1.2.3.4" http_GET) http_root)
             demo_state
  ↔ mkFile (demo_GetHash B) "raw" B = mkFile (demo_GetHash B) "raw" B
    ∧ B ≠ [] ∧ demo_GetHash B ∉ knownHashes (cm demo_state).
Proof.
  apply (handleConnection_raw_record demo_GetHash (knock "1.2.3.4" http_GET)
           http_root demo_state "1.2.3.4" 40000).
  - reflexivity.
  - reflexivity.
  - intros _. by exists (Err "tls: handshake failure").
Defined.



(** The folder /data/ of the fixture is empty before [setupStore]. *)
Lemma setupStore_success_is_fresh_witness :
  let st1 := (setupStore (with_OutputFolder "/data/" demo_fs)).2 in
  let F := OutputFolder (config (cm st1)) in
  ∃ p q,
    resolve demo_fs (F +:+ "raw") = Some p
    ∧ resolve demo_fs (F +:+ "sessions") = Some q
    ∧ is_dir demo_fs p = false ∧ is_dir demo_fs q = false
    ∧ is_dir (fs st1) p = true ∧ is_dir (fs st1) q = true
    ∧ dirs (fs st1) = {[q]} ∪ ({[p]} ∪ dirs demo_fs).
Proof.
  apply (setupStore_success_is_fresh (with_OutputFolder "/data/" demo_fs)).
  - vm_compute. reflexivity.
  - vm_compute. discriminate.
Defined.

(** A raw record stored after [setupStore]. *)
Lemma Store_writes_sanitized_file_witness :
  let st1 := (setupStore (with_OutputFolder "/data/" demo_fs)).2 in
  let st' := (Store None "abc" "raw" [x41] st1).2 in
  files (fs st') !! ["data"; "raw"; "abc"] = Some (Sanitize (cm st1) [x41]).
Proof.
  exact (proj1 (proj2
    (Store_writes_sanitized_file None "abc" "raw" [x41]
       (setupStore (with_OutputFolder "/data/" demo_fs)).2
       ["data"; "raw"; "abc"]
       ltac:(vm_compute; discriminate) ltac:(vm_compute; reflexivity)))).
Defined.


(** ** The reads of the observer *)

(** A turn on a packet does to the manager what the manager alone
    decides, whatever the trace and the file system. *)
Lemma tcpManager_packet_cm net_Listen pkt st st' :
  cm st = cm st' →
  cm (tcpManager_packet net_Listen pkt st).2
  = cm (tcpManager_packet net_Listen pkt st').2.
Proof.
  intros Hcm. unfold tcpManager_packet.
  destruct (decide _); [|done].
  unfold CreateTCPListener, mbind, M_bind, gets. simpl. rewrite <- Hcm.
  destruct (decide _); simpl; [done|].
  destruct (tcpListeners (cm st) !! DestPort pkt); simpl; [done|].
  destruct (net_Listen _); simpl; by rewrite <- ?Hcm.
Qed.

Lemma tcpManager_packets_cm net_Listen pkts st st' :
  cm st = cm st' →
  cm (tcpManager_packets net_Listen pkts st).2
  = cm (tcpManager_packets net_Listen pkts st').2.
Proof.
  revert st st'. induction pkts as [|pkt rest IH]; intros st st' Hcm; [done|].
  simpl. unfold mbind, M_bind.
  pose proof (tcpManager_packet_cm net_Listen pkt st st' Hcm) as Hstep.
  destruct (tcpManager_packet_run net_Listen pkt st) as (Hr & _).
  destruct (tcpManager_packet_run net_Listen pkt st') as (Hr' & _).
  destruct (tcpManager_packet net_Listen pkt st) as [r st1].
  destruct (tcpManager_packet net_Listen pkt st') as [r' st1'].
  simpl in *. subst r r'. by apply IH.
Qed.

(** X23: a failed read of the observer opens no listener.  When every
    failed read of a run brings an address the loop goes through all the
    reads, and the manager ends as if only the packets of the successful
    reads had been processed; a failed read without an address makes the
    log call panic, and the loop stops there. *)
Theorem tcpManager_loop_read_errors Decode net_Listen reads st :
  (Forall (fun r => ¬ nil_addr r) reads →
   (tcpManager_loop Decode net_Listen reads st).1 = Ret tt
   ∧ cm (tcpManager_loop Decode net_Listen reads st).2
     = cm (tcpManager_packets net_Listen (packets Decode reads) st).2)
  ∧ (Exists nil_addr reads →
     (tcpManager_loop Decode net_Listen reads st).1
     = Panic "invalid memory address or nil pointer dereference").
Proof.
  revert st. induction reads as [|r rest IH]; intros st.
  - split; [done|]. intros H. by apply Exists_nil in H.
  - simpl. unfold mbind, M_bind. destruct r as [data|[a|] err]; simpl.
    + unfold mbind, M_bind.
      destruct (tcpManager_packet_run net_Listen (Decode data) st) as (Hr & _).
      destruct (tcpManager_packet net_Listen (Decode data) st) as [r st1].
      simpl in Hr. subst r. destruct (IH st1) as [IHok IHbad]. split.
      * intros Hall. apply Forall_cons in Hall as [_ Hall]. by apply IHok.
      * intros Hex. apply Exists_cons in Hex as [[]|Hex]. by apply IHbad.
    + destruct (IH (mkState (cm st) (fs st)
                      (trace st ++ [EvLog "trace" "reading socket"])))
        as [IHok IHbad].
      split.
      * intros Hall. apply Forall_cons in Hall as [_ Hall].
        destruct (IHok Hall) as [Hret Hcm]. split; [done|].
        rewrite Hcm. by apply tcpManager_packets_cm.
      * intros Hex. apply Exists_cons in Hex as [[]|Hex]. by apply IHbad.
    + split; [|done]. intros Hall. apply Forall_cons in Hall as [Hno _].
      by destruct Hno.
Qed.
